(** * 3c-game-loader: the loader pipeline, the card-flip game and the
      in-memory storage helper, embedded as Rocq functions.

    Sources embedded here:
    - [src/main.js] (the "enhanced" loader: ConfigManager, ThemeManager,
      GameManager, UIManager, ConfigError, GameLoader);
    - [src/games/card-flip.js] (startGame, escapeHtml);
    - [src/admin/editor.js] (StorageUtils).

    JavaScript strings are modelled as [string] (sequences of 8-bit code
    units), JSON numbers as integers ([Z], printed as their decimal digits,
    which is what JavaScript does below 2^53), JSON objects as property
    lists in insertion order with distinct keys.  Code that throws returns
    a [Completion] next to the page state it leaves behind: JavaScript does
    not roll effects back when an exception propagates.  What the network,
    the module loader and the image loads answer is a parameter of a run,
    the [World]. *)

From Stdlib Require Import String Ascii List ZArith Lia Bool DecimalString DecimalN DecimalFacts.
From stdpp Require Import gmap strings list.
Import ListNotations.
Set Warnings "-register-all".
Local Open Scope string_scope.
Local Open Scope Z_scope.
Local Open Scope list_scope.

(** ** Strings *)

(** [String.prototype.includes]: does [needle] occur in [s]? *)
Fixpoint includes (s needle : string) : bool :=
  String.prefix needle s ||
  match s with
  | EmptyString => false
  | String _ s' => includes s' needle
  end.

(** Decimal rendering of numbers, as template literals and [String()] do. *)
Definition string_of_N (n : N) : string :=
  NilEmpty.string_of_uint (N.to_uint n).

Definition string_of_Z (z : Z) : string :=
  if z <? 0 then "-" +:+ string_of_N (Z.abs_N z) else string_of_N (Z.to_N z).

(** ** JSON values *)

Inductive JValue : Type :=
| JNull
| JBool (b : bool)
| JNum (z : Z)
| JStr (s : string)
| JArr (items : list JValue)
| JObj (props : list (string * JValue)).

(** A JavaScript value as the loader sees it: a JSON value, or [undefined]
    ([None]), which is what reading a missing property yields. *)
Definition JsVal : Type := option JValue.

(** ToBoolean. *)
Definition truthy (v : JsVal) : bool :=
  match v with
  | None => false
  | Some JNull => false
  | Some (JBool b) => b
  | Some (JNum z) => negb (z =? 0)
  | Some (JStr s) => negb (String.eqb s "")
  | Some (JArr _) => true
  | Some (JObj _) => true
  end.

(** [a || b] on values. *)
Definition js_or (a b : JsVal) : JsVal := if truthy a then a else b.

(** [a && b] on values. *)
Definition js_and (a b : JsVal) : JsVal := if truthy a then b else a.

(** Own-property lookup in a property list (first binding of the key). *)
Fixpoint assoc (k : string) (props : list (string * JValue)) : JsVal :=
  match props with
  | [] => None
  | (k', v) :: rest => if String.eqb k k' then Some v else assoc k rest
  end.

Fixpoint join (sep : string) (parts : list string) : string :=
  match parts with
  | [] => ""
  | [p] => p
  | p :: rest => p +:+ sep +:+ join sep rest
  end.

(** ToString on JSON values ([String(v)], template-literal holes). *)
Fixpoint to_string (v : JValue) : string :=
  match v with
  | JNull => "null"
  | JBool true => "true"
  | JBool false => "false"
  | JNum z => string_of_Z z
  | JStr s => s
  | JArr items =>
      join "," (List.map (fun x => match x with JNull => "" | _ => to_string x end) items)
  | JObj _ => "[object Object]"
  end.

Definition js_string (v : JsVal) : string :=
  match v with
  | None => "undefined"
  | Some x => to_string x
  end.

(** ** Errors and completions *)

Inductive ErrorClass : Type :=
| ErrorC          (* new Error(...) *)
| TypeErrorC      (* raised by the engine: property of null, failed fetch, failed import *)
| SyntaxErrorC    (* raised by JSON parsing *)
| ConfigErrorC    (* class ConfigError extends Error *)
| GameErrorC.     (* class GameError extends Error *)

Record JsError : Type := mkError {
  eclass : ErrorClass;
  message : string;
  etype : option string   (* the [type] property; only the two custom classes set it *)
}.

Definition error_name (e : JsError) : string :=
  match eclass e with
  | ErrorC => "Error"
  | TypeErrorC => "TypeError"
  | SyntaxErrorC => "SyntaxError"
  | ConfigErrorC => "ConfigError"
  | GameErrorC => "GameError"
  end.

(** [new Error(msg)] *)
Definition newError (msg : string) : JsError := mkError ErrorC msg None.

(** [new ConfigError(msg, type)], with the default parameter
    [type = 'CONFIG_ERROR'] taken when the argument is [undefined]. *)
Definition newConfigError (msg : string) (type : option string) : JsError :=
  mkError ConfigErrorC msg (Some (default "CONFIG_ERROR" type)).

(** [new GameError(msg, type)], default [type = 'GAME_ERROR']. *)
Definition newGameError (msg : string) (type : option string) : JsError :=
  mkError GameErrorC msg (Some (default "GAME_ERROR" type)).

Definition instanceof_ConfigError (e : JsError) : bool :=
  match eclass e with ConfigErrorC => true | _ => false end.

Inductive Completion (A : Type) : Type :=
| Normal (a : A)
| Throw (e : JsError).
Arguments Normal {A} a.
Arguments Throw {A} e.

#[global] Instance Completion_ret : MRet Completion := fun _ a => Normal a.
#[global] Instance Completion_bind : MBind Completion := fun _ _ f c =>
  match c with
  | Normal a => f a
  | Throw e => Throw e
  end.

(** Property read [v[k]] on a JSON value.  Reading from [null] throws; the
    only properties the loader reads are data properties of parsed objects,
    so every other receiver yields [undefined]. *)
Definition prop (v : JValue) (k : string) : JsVal :=
  match v with
  | JObj props => assoc k props
  | _ => None
  end.

Definition dq : string := String "034"%char EmptyString.
Definition sq : string := String "039"%char EmptyString.
Definition nl : string := String "010"%char EmptyString.

Definition get_prop (v : JValue) (k : string) : Completion JsVal :=
  match v with
  | JNull =>
      Throw (mkError TypeErrorC
               ("Cannot read properties of null (reading " +:+ sq +:+ k +:+ sq +:+ ")") None)
  | _ => Normal (prop v k)
  end.

(** ** The DOM *)

(** What a click listener registered by a game does.  The card-flip
    listener adds the class [flipped] and, unless [settings.stayOpen] is
    truthy, removes it again after the given delay. *)
Inductive Listener : Type :=
| FlipOnClick (unflipAfter : option JsVal).

Inductive Node : Type :=
| Markup (html : string)      (* children produced by an [innerHTML] assignment *)
| TextNode (text : string)    (* child produced by a [textContent] assignment *)
| Element (tag : string) (className : string)
          (attrs : list (string * string)) (style : list (string * string))
          (listeners : list Listener) (children : list Node).

Definition has_class (cls : string) (n : Node) : bool :=
  match n with
  | Element _ className _ _ _ _ => existsb (String.eqb cls) (String.words className)
  | _ => false
  end.

(** Number of elements of the subtree carrying class [cls]
    ([querySelectorAll('.cls').length], the node itself included). *)
Fixpoint count_class (cls : string) (n : Node) : nat :=
  ((if has_class cls n then 1 else 0) +
   match n with
   | Element _ _ _ _ _ children =>
       (fix go (l : list Node) : nat :=
          match l with
          | [] => 0
          | c :: l' => count_class cls c + go l'
          end) children
   | _ => 0
   end)%nat.


(** ** games/card-flip.js *)

(** [s.replace(/c/g, by)] for a one-character pattern. *)
Fixpoint replace_all (c : ascii) (by_ : string) (s : string) : string :=
  match s with
  | EmptyString => EmptyString
  | String a s' =>
      if Ascii.eqb a c then by_ +:+ replace_all c by_ s'
      else String a (replace_all c by_ s')
  end.

Definition escapeHtml (s : JsVal) : string :=
  replace_all ">" "&gt;"
    (replace_all "<" "&lt;"
       (replace_all "034" "&quot;"
          (replace_all "&" "&amp;" (js_string s)))).

(** The markup assigned to a card front's [innerHTML]. *)
Definition front_html (message : JsVal) : string :=
  "<div class=" +:+ dq +:+ "card-text" +:+ dq +:+ ">" +:+ escapeHtml message +:+ "</div>".

(** What the click listener will do, from [config.settings]. *)
Definition flip_listener (config : JValue) : Listener :=
  let settings := prop config "settings" in
  let stay := js_or (js_and settings (v ← settings; prop v "stayOpen")) (Some (JBool false)) in
  if truthy stay then FlipOnClick None
  else FlipOnClick
         (Some (js_or (js_and settings (v ← settings; prop v "displayMs")) (Some (JNum 2500)))).

(** The element the [forEach] callback builds from what it read. *)
Definition card_element (config : JValue) (id message : JsVal) : Node :=
  let back := Element "div" "card-face card-back" [] [] [] [] in
  let front := Element "div" "card-face card-front" [] [] [] [Markup (front_html message)] in
  let inner := Element "div" "card-inner" [] [] [] [back; front] in
  Element "div" "card" [("data-id", js_string id)] [] [flip_listener config] [inner].

(** The body of the [forEach] callback: [cardData.id] is read first, then
    [cardData.message]; either read throws on a [null] entry. *)
Definition renderCard (config cardData : JValue) : Completion Node :=
  id ← get_prop cardData "id";
  message ← get_prop cardData "message";
  mret (card_element config id message).

(** [cards.forEach(cb)] where each call appends one element to the wrapper;
    the first exception stops the loop. *)
Fixpoint forEach_render (config : JValue) (cards : list JValue) (acc : list Node)
  : Completion (list Node) :=
  match cards with
  | [] => Normal acc
  | cardData :: rest =>
      card ← renderCard config cardData;
      forEach_render config rest (acc ++ [card])
  end.

Definition not_a_function (what : string) : JsError :=
  mkError TypeErrorC (what +:+ " is not a function") None.

Definition read_of_undefined (k : string) : JsError :=
  mkError TypeErrorC
    ("Cannot read properties of undefined (reading " +:+ sq +:+ k +:+ sq +:+ ")") None.

(** [startGame(config, container)]: the container's children before, the
    completion and the container's children after.  The wrapper is only
    appended after the loop, so an exception inside the loop leaves the
    title alone in the container. *)
Definition startGame (config : JValue) (container : list Node)
  : Completion unit * list Node :=
  match get_prop config "title" with
  | Throw e => (Throw e, container)
  | Normal t =>
      let title := Element "h2" "" [] [("text-align", "center")] []
                     [TextNode (js_string (js_or t (Some (JStr "Card Flip"))))] in
      let container1 := container ++ [title] in
      match prop config "cards" with
      | Some (JArr cards) =>
          match forEach_render config cards [] with
          | Throw e => (Throw e, container1)
          | Normal cardNodes =>
              (Normal tt, container1 ++ [Element "div" "cards-wrapper" [] [] [] cardNodes])
          end
      | Some JNull => (Throw (mkError TypeErrorC
                         ("Cannot read properties of null (reading " +:+ sq +:+ "forEach" +:+ sq +:+ ")") None),
                       container1)
      | None => (Throw (read_of_undefined "forEach"), container1)
      | Some _ => (Throw (not_a_function "config.cards.forEach"), container1)
      end
  end.

(** ** The page and the outside world *)

Record BodyStyle : Type := mkBodyStyle {
  backgroundImage : string;
  backgroundSize : string;
  backgroundPosition : string;
  backgroundRepeat : string
}.

(** What a run does that is visible from outside the page's styles and
    container: console output, network requests, module resolution. *)
Inductive Event : Type :=
| ConsoleLog (msg : string)
| ConsoleWarn (msg : string) (err : option JsError)
| ConsoleError (msg : string) (err : JsError)
| Fetched (url : string)
| Imported (path : string)
| ImageRequested (src : string)
| GameStarted.

Record Page : Type := mkPage {
  bodyStyle : BodyStyle;               (* document.body.style *)
  rootStyle : gmap string string;      (* custom properties of document.documentElement.style *)
  container : list Node;               (* children of #game-container *)
  events : list Event                  (* oldest first *)
}.

Record Response : Type := mkResponse {
  status : N;
  statusText : string;
  json : Completion JValue             (* outcome of response.json() *)
}.

Definition ok (r : Response) : bool := (200 <=? status r)%N && (status r <=? 299)%N.

Inductive FetchOutcome : Type :=
| FetchRejected (e : JsError)
| Responded (r : Response).

Definition StartGame : Type := JValue -> list Node -> Completion unit * list Node.

(** A module namespace object; [mod_startGame = None] when the module has no
    export [startGame] that is a function. *)
Record GameModule : Type := mkModule {
  mod_startGame : option StartGame
}.

Inductive ImportOutcome : Type :=
| ImportRejected (e : JsError)
| ImportResolved (m : GameModule).

Record World : Type := mkWorld {
  query : list (string * string);      (* window.location.search, parsed *)
  fetch : string -> FetchOutcome;
  import : string -> ImportOutcome;
  imageLoads : string -> bool          (* true: onload fires; false: onerror fires *)
}.

(** ** Effectful code: page state threaded through, exceptions kept apart *)

Definition M (A : Type) : Type := Page -> Completion A * Page.

#[global] Instance M_ret : MRet M := fun _ a p => (Normal a, p).
#[global] Instance M_bind : MBind M := fun _ _ f c p =>
  match c p with
  | (Normal a, p') => f a p'
  | (Throw e, p') => (Throw e, p')
  end.

Definition throw {A} (e : JsError) : M A := fun p => (Throw e, p).
Definition liftC {A} (c : Completion A) : M A := fun p => (c, p).

(** [try { c } catch (error) { h error }] *)
Definition try_catch {A} (c : M A) (h : JsError -> M A) : M A := fun p =>
  match c p with
  | (Normal a, p') => (Normal a, p')
  | (Throw e, p') => h e p'
  end.

Definition emit (e : Event) : M unit := fun p =>
  (Normal tt, mkPage (bodyStyle p) (rootStyle p) (container p) (events p ++ [e])).

Definition set_container (ns : list Node) : M unit := fun p =>
  (Normal tt, mkPage (bodyStyle p) (rootStyle p) ns (events p)).

Definition set_bodyStyle (b : BodyStyle) : M unit := fun p =>
  (Normal tt, mkPage b (rootStyle p) (container p) (events p)).

Definition setProperty (name value : string) : M unit := fun p =>
  (Normal tt, mkPage (bodyStyle p) (<[name := value]> (rootStyle p)) (container p) (events p)).

(** ** ConfigManager *)

(** [URLSearchParams.prototype.get]: the first value of the name, [null]
    ([None]) when the name does not occur. *)
Fixpoint params_get (name : string) (params : list (string * string)) : option string :=
  match params with
  | [] => None
  | (k, v) :: rest => if String.eqb k name then Some v else params_get name rest
  end.

(** Truthiness of a string-or-null. *)
Definition nonempty (s : option string) : bool :=
  match s with
  | Some s' => negb (String.eqb s' "")
  | None => false
  end.

Definition do_fetch (w : World) (url : string) : M Response :=
  emit (Fetched url);;
  match fetch w url with
  | FetchRejected e => throw e
  | Responded r => mret r
  end.

Definition http_error (r : Response) : JsError :=
  newError ("HTTP " +:+ string_of_N (status r) +:+ ": " +:+ statusText r).

Definition fetchFromUrl (w : World) (url : string) : M JValue :=
  response ← do_fetch w url;
  if negb (ok response) then throw (http_error response)
  else liftC (json response).

Definition fetchFromName (w : World) (configName : string) : M JValue :=
  response ← do_fetch w ("config/" +:+ configName +:+ ".json");
  if negb (ok response) then
    if (status response =? 404)%N then
      throw (newError ("Config file " +:+ sq +:+ configName +:+ ".json" +:+ sq +:+ " not found"))
    else throw (http_error response)
  else liftC (json response).

Definition fetchConfigFromUrlOrName (w : World) : M JValue :=
  let urlParams := query w in
  let configUrl := params_get "configUrl" urlParams in
  let configName :=
    if nonempty (params_get "configName" urlParams)
    then default "" (params_get "configName" urlParams) else "card-flip" in
  try_catch
    (if nonempty configUrl then fetchFromUrl w (default "" configUrl)
     else fetchFromName w configName)
    (fun error =>
       throw (newConfigError ("Failed to load configuration: " +:+ message error) (etype error))).

Definition required : list string := ["gameType"].

(** [fields.filter(field => !config[field])] *)
Fixpoint filter_missing (config : JValue) (fields : list string) : Completion (list string) :=
  match fields with
  | [] => Normal []
  | field :: rest =>
      v ← get_prop config field;
      missing ← filter_missing config rest;
      mret (if negb (truthy v) then field :: missing else missing)
  end.

Definition validateConfig (config : JValue) : Completion bool :=
  missing ← filter_missing config required;
  if (0 <? length missing)%nat then
    Throw (newError ("Missing required config fields: " +:+ join ", " missing))
  else Normal true.

(** ** ThemeManager *)

Definition theme_asset (themeName : JsVal) (file : string) : string :=
  "assets/themes/" +:+ js_string themeName +:+ "/" +:+ file.

Definition css_url (path : string) : string := "url(" +:+ sq +:+ path +:+ sq +:+ ")".

Definition setBackground (themeName : JsVal) : M unit :=
  let bgUrl := theme_asset themeName "bg.png" in
  set_bodyStyle (mkBodyStyle (css_url bgUrl) "cover" "center" "no-repeat").

Definition setCardBack (themeName : JsVal) : M unit :=
  let cardBackUrl := css_url (theme_asset themeName "card-back.png") in
  setProperty "--card-back" cardBackUrl.

(** [new Promise(resolve => { img.onload = img.onerror = () => resolve(); img.src = src })]:
    the request is issued and the promise is fulfilled whichever of the two
    events fires. *)
Definition preload_image (w : World) (src : string) : M (Completion unit) :=
  emit (ImageRequested src);;
  mret (if imageLoads w src then Normal tt else Normal tt).

(** [Promise.all]: fulfilled with all values, or rejected with the first
    rejection. *)
Fixpoint promise_all {A} (ps : list (Completion A)) : Completion (list A) :=
  match ps with
  | [] => Normal []
  | p :: rest => a ← p; l ← promise_all rest; mret (a :: l)
  end.

Fixpoint mapM {A B} (f : A -> M B) (l : list A) : M (list B) :=
  match l with
  | [] => mret []
  | a :: rest => b ← f a; bs ← mapM f rest; mret (b :: bs)
  end.

(** The continuation after [await Promise.all(...)] is run at once: when
    the images settle relative to the later pipeline steps is not modelled. *)
Definition preloadThemeAssets (w : World) (themeName : JsVal) : M unit :=
  let assets := [theme_asset themeName "bg.png"; theme_asset themeName "card-back.png"] in
  preloadPromises ← mapM (preload_image w) assets;
  try_catch
    (liftC (promise_all preloadPromises);;
     emit (ConsoleLog ("Theme " +:+ sq +:+ js_string themeName +:+ sq +:+ " assets preloaded")))
    (fun error => emit (ConsoleWarn "Some theme assets failed to preload:" (Some error))).

(** A call whose promise is dropped: its effects happen, its outcome does
    not reach the caller. *)
Definition not_awaited {A} (c : M A) : M unit := fun p => (Normal tt, snd (c p)).

(** [applyTheme] does not await the preload: a rejection of the promise
    returned by [preloadThemeAssets] would not reach the caller. *)
Definition applyTheme (w : World) (themeName : JsVal) : M unit :=
  if negb (truthy themeName) then
    emit (ConsoleWarn "No theme specified, using default styling" None)
  else
    setBackground themeName;;
    setCardBack themeName;;
    not_awaited (preloadThemeAssets w themeName).

(** ** GameManager *)

Definition do_import (w : World) (path : string) : M GameModule :=
  emit (Imported path);;
  match import w path with
  | ImportRejected e => throw e
  | ImportResolved m => mret m
  end.

Definition loadGameModule (w : World) (gameType : JsVal) : M GameModule :=
  let modulePath := "./games/" +:+ js_string gameType +:+ ".js" in
  try_catch
    (module ← do_import w modulePath;
     match mod_startGame module with
     | None =>
         throw (newError ("Game module " +:+ sq +:+ js_string gameType +:+ sq
                          +:+ " missing startGame function"))
     | Some _ => mret module
     end)
    (fun error =>
       if includes (message error) "Failed to resolve module" then
         throw (newError ("Game module " +:+ sq +:+ js_string gameType +:+ ".js" +:+ sq
                          +:+ " not found"))
       else throw error).

(** A game entry point run on the live container. *)
Definition on_container (f : list Node -> Completion unit * list Node) : M unit := fun p =>
  let '(c, children) := f (container p) in
  (c, mkPage (bodyStyle p) (rootStyle p) children (events p)).

(** [module.startGame(config, container)] *)
Definition call_startGame (module : GameModule) (config : JValue) : M unit :=
  match mod_startGame module with
  | None => throw (not_a_function "module.startGame")
  | Some f => emit GameStarted;; on_container (f config)
  end.

Definition initializeGame (module : GameModule) (config : JValue) : M unit :=
  try_catch
    (set_container [];;
     call_startGame module config;;
     gameType ← liftC (get_prop config "gameType");
     emit (ConsoleLog ("Game " +:+ sq +:+ js_string gameType +:+ sq
                       +:+ " initialized successfully")))
    (fun error => throw (newError ("Failed to initialize game: " +:+ message error))).

(** ** UIManager *)

Definition error_html (message : string) (details : option string) : string :=
  let detailsHtml :=
    if nonempty details then
      "<details><summary>Technical Details</summary><pre>" +:+ default "" details
      +:+ "</pre></details>"
    else "" in
  nl +:+ "      <div class=" +:+ dq +:+ "loader-message error" +:+ dq +:+ ">" +:+ nl
  +:+ "        <h3>🎮 Oops! Something went wrong</h3>" +:+ nl
  +:+ "        <p>" +:+ message +:+ "</p>" +:+ nl
  +:+ "        " +:+ detailsHtml +:+ nl
  +:+ "        <button onclick=" +:+ dq +:+ "location.reload()" +:+ dq +:+ " class=" +:+ dq
  +:+ "retry-button" +:+ dq +:+ ">Try Again</button>" +:+ nl
  +:+ "      </div>" +:+ nl
  +:+ "    ".

Definition showError (message : string) (details : option string) : M unit :=
  set_container [Markup (error_html message details)].

Definition loading_html (message : string) : string :=
  nl +:+ "      <div class=" +:+ dq +:+ "loader-message" +:+ dq +:+ ">" +:+ nl
  +:+ "        <div class=" +:+ dq +:+ "spinner" +:+ dq +:+ "></div>" +:+ nl
  +:+ "        <p>" +:+ message +:+ "</p>" +:+ nl
  +:+ "      </div>" +:+ nl
  +:+ "    ".

Definition showLoading (message : string) : M unit :=
  set_container [Markup (loading_html message)].

(** ** GameLoader *)

Definition msg_generic : string := "Failed to load game. Please try again.".
Definition msg_config : string := "Game configuration error. Please check the game settings.".
Definition msg_missing : string := "Game files are missing. Please check the installation.".
Definition msg_network : string := "Network error. Please check your connection and try again.".

(** The classification in the [catch] block of [initialize]. *)
Definition userMessage (error : JsError) : string :=
  if instanceof_ConfigError error then msg_config
  else if includes (message error) "not found" then msg_missing
  else if includes (message error) "network" then msg_network
  else msg_generic.

(** The [try] block of [initialize]. *)
Definition pipeline (w : World) : M unit :=
  showLoading "Loading configuration...";;
  config ← fetchConfigFromUrlOrName w;
  liftC (validateConfig config);;
  showLoading "Applying theme...";;
  theme ← liftC (get_prop config "theme");
  applyTheme w theme;;
  showLoading "Loading game module...";;
  gameType ← liftC (get_prop config "gameType");
  gameModule ← loadGameModule w gameType;
  showLoading "Initializing game...";;
  initializeGame gameModule config.

Definition initialize (w : World) : M unit :=
  try_catch (pipeline w)
    (fun error =>
       emit (ConsoleError "Game loader error:" error);;
       showError (userMessage error) (Some (message error))).

(** The module namespace of [games/card-flip.js]. *)
Definition card_flip_module : GameModule := mkModule (Some startGame).

Definition blank_page : Page :=
  mkPage (mkBodyStyle "" "" "" "") ∅ [] [].
(** ** JSON text

    [JSON.stringify] and [JSON.parse] are the platform's; they are modelled
    here on [JValue] following ECMA-262 (SerializeJSONProperty,
    QuoteJSONString) and the JSON grammar.  The parser covers the texts
    without insignificant white space, fractions and exponents, which is
    all [JSON.stringify] emits for the values of the model. *)







Definition is_digit (c : ascii) : bool :=
  (48 <=? N_of_ascii c)%N && (N_of_ascii c <=? 57)%N.

Fixpoint span_digits (s : string) : string * string :=
  match s with
  | EmptyString => (EmptyString, EmptyString)
  | String c s' =>
      if is_digit c then
        let '(d, r) := span_digits s' in (String c d, r)
      else (EmptyString, s)
  end.

(** Accept one given character (by code) at the head of the text. *)
Definition strip (n : N) (s : string) : option string :=
  match s with
  | EmptyString => None
  | String a r => if (N_of_ascii a =? n)%N then Some r else None
  end.

Definition is_empty (s : string) : bool :=
  match s with
  | EmptyString => true
  | String _ _ => false
  end.










(** ** StorageUtils (admin/editor.js)

    [_storage] is a [Map] from keys to what [JSON.stringify] returned: a
    string, or [undefined] when the value has no JSON text.  [keys()], which
    depends on insertion order, is not part of the model. *)





Definition clear (_storage : gmap string (option string)) : gmap string (option string) := ∅.

(** ** Helpers for statements *)

(** The configuration name a run uses: [configName], or [card-flip] when
    the parameter is absent or empty. *)
Definition config_name (params : list (string * string)) : string :=
  if nonempty (params_get "configName" params)
  then default "" (params_get "configName" params) else "card-flip".

(** Whether a run takes the override branch. *)
Definition overridden (params : list (string * string)) : bool :=
  nonempty (params_get "configUrl" params).

(** The URL of the configuration request of a run, read off
    [fetchConfigFromUrlOrName]: the override when it is a non-empty string,
    otherwise the path built from the configuration name
    (see [fetchConfig_requests_config_url]). *)
Definition config_url (params : list (string * string)) : string :=
  if overridden params then default "" (params_get "configUrl" params)
  else "config/" +:+ config_name params +:+ ".json".

(** A world in which every request is answered with the given response and
    no module resolves. *)
Definition world_answering (params : list (string * string)) (r : Response) : World :=
  mkWorld params (fun _ => Responded r)
    (fun _ => ImportRejected (mkError TypeErrorC "Failed to resolve module specifier" None))
    (fun _ => true).

(** The outcome of the configuration step in a world.  It does not depend
    on the page the step starts from, see [fetchConfig_run]. *)
Definition config_outcome (w : World) : Completion JValue :=
  fst (fetchConfigFromUrlOrName w blank_page).

(** The outcome of the module step, likewise ([loadGameModule_run]). *)
Definition module_outcome (w : World) (gameType : JsVal) : Completion GameModule :=
  fst (loadGameModule w gameType blank_page).

Definition add_events (p : Page) (evs : list Event) : Page :=
  mkPage (bodyStyle p) (rootStyle p) (container p) (events p ++ evs).

(** The page once [showError] has replaced the container's content. *)
Definition failed_page (p : Page) (evs : list Event) (error : JsError) : Page :=
  mkPage (bodyStyle p) (rootStyle p)
    [Markup (error_html (userMessage error) (Some (message error)))]
    (events p ++ evs ++ [ConsoleError "Game loader error:" error]).

(** The page after [applyTheme]: see [applyTheme_run]. *)
Definition themed (themeName : JsVal) (p : Page) : Page :=
  if truthy themeName then
    mkPage (mkBodyStyle (css_url (theme_asset themeName "bg.png")) "cover" "center" "no-repeat")
      (<["--card-back" := css_url (theme_asset themeName "card-back.png")]> (rootStyle p))
      (container p)
      (events p ++ [ImageRequested (theme_asset themeName "bg.png");
                    ImageRequested (theme_asset themeName "card-back.png");
                    ConsoleLog ("Theme " +:+ sq +:+ js_string themeName +:+ sq
                                +:+ " assets preloaded")])
  else add_events p [ConsoleWarn "No theme specified, using default styling" None].

Definition module_path (gameType : JsVal) : string :=
  "./games/" +:+ js_string gameType +:+ ".js".

(** [card.querySelector('.card-front').innerHTML] on a card element. *)
Definition front_markup (card : Node) : option string :=
  match card with
  | Element _ _ _ _ _ [Element _ _ _ _ _ [_; Element _ _ _ _ _ [Markup html]]] => Some html
  | _ => None
  end.

(** The shapes of the specification's data model: a CardSpec has an integer
    [id] and strings [frontImage] and [message]; a GameConfig has a
    non-empty string [gameType] and a sequence [cards] of CardSpecs. *)
Definition is_CardSpec (c : JValue) : bool :=
  match prop c "id", prop c "frontImage", prop c "message" with
  | Some (JNum _), Some (JStr _), Some (JStr _) => true
  | _, _, _ => false
  end.

Definition valid_config (config : JValue) : bool :=
  match prop config "gameType" with
  | Some (JStr g) => negb (String.eqb g "")
  | _ => false
  end &&
  match prop config "cards" with
  | Some (JArr cards) => forallb is_CardSpec cards
  | _ => false
  end.

(** What [escapeHtml] does to one character. *)
Definition escape_char (c : ascii) : string :=
  if Ascii.eqb c "&" then "&amp;"
  else if Ascii.eqb c "034" then "&quot;"
  else if Ascii.eqb c "<" then "&lt;"
  else if Ascii.eqb c ">" then "&gt;"
  else String c EmptyString.

Fixpoint escape_chars (s : string) : string :=
  match s with
  | EmptyString => EmptyString
  | String c s' => escape_char c +:+ escape_chars s'
  end.

Fixpoint occurs (c : ascii) (s : string) : bool :=
  match s with
  | EmptyString => false
  | String a s' => Ascii.eqb a c || occurs c s'
  end.

(** How an HTML parser reads text content back: the four character
    references [escapeHtml] produces stand for their characters, everything
    else for itself. *)
Fixpoint decode_entities (s : string) : string :=
  match s with
  | EmptyString => EmptyString
  | String c s' =>
      if Ascii.eqb c "&" then
        match s' with
        | String "a" (String "m" (String "p" (String ";" r))) => String "&" (decode_entities r)
        | String "q" (String "u" (String "o" (String "t" (String ";" r)))) =>
            String "034" (decode_entities r)
        | String "l" (String "t" (String ";" r)) => String "<" (decode_entities r)
        | String "g" (String "t" (String ";" r)) => String ">" (decode_entities r)
        | _ => String c (decode_entities s')
        end
      else String c (decode_entities s')
  end.

(** Structural induction on JSON values, through arrays and objects. *)
Section JValue_induction.
Variable P : JValue -> Prop.
Hypothesis Hnull : P JNull.
Hypothesis Hbool : forall b, P (JBool b).
Hypothesis Hnum : forall z, P (JNum z).
Hypothesis Hstr : forall s, P (JStr s).
Hypothesis Harr : forall items, Forall P items -> P (JArr items).
Hypothesis Hobj : forall props, Forall (fun kv => P (snd kv)) props -> P (JObj props).

End JValue_induction.



(** Notions used to state that the text of a value parses back. *)

Definition head_not_digit (rest : string) : bool :=
  match rest with
  | EmptyString => true
  | String c _ => negb (is_digit c)
  end.

(** The digits of a number are [0] alone or start with a non-zero digit. *)
Definition canonical_digits (s : string) : Prop :=
  exists c s', s = String c s' /\ is_digit c = true /\
               ((N_of_ascii c =? 48)%N && negb (is_empty s') = false).





(** * Utility library (admin/editor.js, main.js)

    The helpers below draw random numbers through an oracle: [rand k n] is
    what [Math.floor(Math.random() * n)] gives at the [k]-th draw of a run.
    For [n > 0] it lies below [n]; the properties that need it say so. *)

(** ** StringUtils *)

Definition in_range (lo hi : N) (c : ascii) : bool :=
  (lo <=? N_of_ascii c)%N && (N_of_ascii c <=? hi)%N.

(** [String.prototype.toLowerCase] on one 8-bit code unit: the letters A-Z
    and the capital letters of the Latin-1 supplement. *)
Definition toLowerCase_char (c : ascii) : ascii :=
  if in_range 65 90 c then ascii_of_N (N_of_ascii c + 32)
  else if in_range 192 222 c && negb (N_of_ascii c =? 215)%N
       then ascii_of_N (N_of_ascii c + 32)
  else c.

Fixpoint toLowerCase (s : string) : string :=
  match s with
  | EmptyString => EmptyString
  | String c s' => String (toLowerCase_char c) (toLowerCase s')
  end.

(** The class [[a-z0-9]]. *)
Definition is_slug_alnum (c : ascii) : bool := in_range 97 122 c || in_range 48 57 c.

Definition is_hyphen (c : ascii) : bool := (N_of_ascii c =? 45)%N.

(** [s.replace(/[^a-z0-9]+/g, '-')]; [in_run] tells that the characters just
    before belong to a run that has already been replaced. *)
Fixpoint replace_runs (in_run : bool) (s : string) : string :=
  match s with
  | EmptyString => EmptyString
  | String c s' =>
      if is_slug_alnum c then String c (replace_runs false s')
      else if in_run then replace_runs true s'
      else String "-" (replace_runs true s')
  end.

Definition drop_leading_hyphen (s : string) : string :=
  match s with
  | String c s' => if is_hyphen c then s' else s
  | EmptyString => EmptyString
  end.

Fixpoint drop_trailing_hyphen (s : string) : string :=
  match s with
  | EmptyString => EmptyString
  | String c s' =>
      match s' with
      | EmptyString => if is_hyphen c then EmptyString else s
      | String _ _ => String c (drop_trailing_hyphen s')
      end
  end.

(** [s.replace(/(^-|-$)/g, '')]: a hyphen at the start is removed, then a
    hyphen at the end of what follows it. *)
Definition strip_edge_hyphens (s : string) : string :=
  drop_trailing_hyphen (drop_leading_hyphen s).

(** [formatSlug(name)] of main.js and [StringUtils.formatSlug]. *)
Definition formatSlug (name : string) : string :=
  strip_edge_hyphens (replace_runs false (toLowerCase name)).

(** Runs of [[a-z0-9]] separated by single hyphens; [after_hyphen] tells
    that the previous character was a hyphen (or that the text starts). *)
Fixpoint slug_tail (after_hyphen : bool) (s : string) : bool :=
  match s with
  | EmptyString => negb after_hyphen
  | String c s' =>
      if is_slug_alnum c then slug_tail false s'
      else is_hyphen c && negb after_hyphen && slug_tail true s'
  end.

Definition is_slug (s : string) : bool :=
  match s with
  | EmptyString => true
  | String _ _ => slug_tail true s
  end.

(** What [replace_runs] produces: characters of [[a-z0-9-]], no two hyphens
    in a row. *)
Fixpoint dashed (after_hyphen : bool) (s : string) : bool :=
  match s with
  | EmptyString => true
  | String c s' =>
      if is_slug_alnum c then dashed false s'
      else is_hyphen c && negb after_hyphen && dashed true s'
  end.

Fixpoint all_chars (P : ascii -> bool) (s : string) : bool :=
  match s with
  | EmptyString => true
  | String c s' => P c && all_chars P s'
  end.

Definition last_char (s : string) : option ascii :=
  String.get (String.length s - 1) s.

(** The class [\w]: letters, digits and the underscore. *)
Definition is_word_char (c : ascii) : bool :=
  in_range 65 90 c || in_range 97 122 c || in_range 48 57 c || (N_of_ascii c =? 95)%N.

(** [toUpperCase] on a character of [\w]: only the letters a-z change. *)
Definition toUpperCase_word_char (c : ascii) : ascii :=
  if in_range 97 122 c then ascii_of_N (N_of_ascii c - 32) else c.

(** White space and line terminators among the 8-bit code units: what
    [\s] matches and [trim] removes. *)
Definition is_js_space (c : ascii) : bool :=
  let n := N_of_ascii c in
  ((9 <=? n)%N && (n <=? 13)%N) || (n =? 32)%N || (n =? 160)%N.

(** [str.replace(/\w\S*/g, txt => txt.charAt(0).toUpperCase() +
    txt.substr(1).toLowerCase())]; [in_match] tells that the scan is inside
    a match, which began at a [\w] and goes on until white space. *)
Fixpoint toTitleCase_scan (in_match : bool) (s : string) : string :=
  match s with
  | EmptyString => EmptyString
  | String c s' =>
      if in_match then
        if is_js_space c then String c (toTitleCase_scan false s')
        else String (toLowerCase_char c) (toTitleCase_scan true s')
      else if is_word_char c then String (toUpperCase_word_char c) (toTitleCase_scan true s')
      else String c (toTitleCase_scan false s')
  end.

Definition toTitleCase (str : string) : string := toTitleCase_scan false str.

(** [str.slice(0, end)] for an integer [end]: a negative [end] counts from
    the end of the string. *)
Definition slice_to (s : string) (end_ : Z) : string :=
  let len := Z.of_nat (String.length s) in
  let to := if end_ <? 0 then Z.max (len + end_) 0 else Z.min end_ len in
  String.substring 0 (Z.to_nat to) s.

Definition truncate (str : string) (maxLength : Z) : string :=
  if Z.of_nat (String.length str) <=? maxLength then str
  else slice_to str (maxLength - 3) +:+ "...".

(** [s.charAt(j)]: the empty string out of range. *)
Definition charAt (s : string) (j : nat) : string :=
  match String.get j s with
  | Some c => String c EmptyString
  | None => EmptyString
  end.

Definition id_chars : string :=
  "ABCDEFGHIJKLMNOPQRSTUVWXYZabcdefghijklmnopqrstuvwxyz0123456789".

(** The loop of [generateId]: [todo] iterations are left, [k] draws have
    been made. *)
Fixpoint generateId_loop (rand : nat -> nat -> nat) (k todo : nat) (result : string) : string :=
  match todo with
  | O => result
  | S todo' =>
      generateId_loop rand (S k) todo'
        (result +:+ charAt id_chars (rand k (String.length id_chars)))
  end.

Definition generateId (rand : nat -> nat -> nat) (k : nat) (length : nat) : string :=
  generateId_loop rand k length EmptyString.

(** ** ArrayUtils *)

(** A relative index of [slice], resolved against the length: negative
    values count from the end. *)
Definition clamp_index (len k : Z) : Z :=
  if k <? 0 then Z.max (len + k) 0 else Z.min k len.

(** [array.slice(start, end)] for integer arguments. *)
Definition slice {A} (l : list A) (start end_ : Z) : list A :=
  let len := Z.of_nat (length l) in
  let from := clamp_index len start in
  let to := clamp_index len end_ in
  take (Z.to_nat (to - from)) (drop (Z.to_nat from) l).

(** [[a[i], a[j]] = [a[j], a[i]]] for two indices inside the array, which
    is where [shuffle] uses it. *)
Definition swap {A} (l : list A) (i j : nat) : list A :=
  match l !! i, l !! j with
  | Some x, Some y => <[j := x]> (<[i := y]> l)
  | _, _ => l
  end.

(** The loop of [shuffle], from index [i] down to 1; [k] draws have been
    made before. *)
Fixpoint shuffle_loop {A} (rand : nat -> nat -> nat) (k i : nat) (shuffled : list A) : list A :=
  match i with
  | O => shuffled
  | S i' =>
      let j := rand k (i + 1)%nat in
      shuffle_loop rand (S k) i' (swap shuffled i j)
  end.

Definition shuffle {A} (rand : nat -> nat -> nat) (k : nat) (array : list A) : list A :=
  shuffle_loop rand k (length array - 1) array.

(** [array[Math.floor(Math.random() * array.length)]]; [None] is
    [undefined]. *)
Definition randomItem {A} (rand : nat -> nat -> nat) (k : nat) (array : list A) : option A :=
  array !! rand k (length array).

Definition randomItems {A} (rand : nat -> nat -> nat) (k : nat) (array : list A) (count : Z)
  : list A :=
  slice (shuffle rand k array) 0 (Z.min count (Z.of_nat (length array))).

Definition createPairs {A} (rand : nat -> nat -> nat) (k : nat) (items : list A) : list A :=
  shuffle rand k (items ++ items).

(** The loop of [chunk].  Nothing bounds the number of iterations in the
    source: [None] is a run that has not ended within [fuel] iterations. *)
Fixpoint chunk_loop {A} (fuel : nat) (array : list A) (size i : Z) (chunks : list (list A))
  : option (list (list A)) :=
  if i <? Z.of_nat (length array) then
    match fuel with
    | O => None
    | S fuel' => chunk_loop fuel' array size (i + size) (chunks ++ [slice array i (i + size)])
    end
  else Some chunks.

Definition chunk {A} (fuel : nat) (array : list A) (size : Z) : option (list (list A)) :=
  chunk_loop fuel array size 0 [].

(** Every chunk of [chunks] but the last has [size] items. *)
Definition full_but_last {A} (size : Z) (chunks : list (list A)) : Prop :=
  forall k c, chunks !! k = Some c -> (S k < length chunks)%nat -> Z.of_nat (length c) = size.

(** ** GameStateUtils.createStateManager

    The state is an object used as a map from keys to values.  A listener
    is known by its identity (a number here), and is taken to do nothing to
    the manager when it is called: what it is called with is recorded in
    [sm_calls]. *)

Record Notification : Type := mkNotification {
  n_listener : nat;
  n_state : gmap string JValue;
  n_prevState : gmap string JValue
}.

Record StateManager : Type := mkStateManager {
  sm_initial : gmap string JValue;     (* [initialState], as captured by the closures *)
  sm_state : gmap string JValue;       (* [state] *)
  sm_listeners : list nat;             (* [listeners] *)
  sm_calls : list Notification         (* listener calls so far, oldest first *)
}.

Definition createStateManager (initialState : gmap string JValue) : StateManager :=
  mkStateManager initialState initialState [] [].

Definition getState (m : StateManager) : gmap string JValue := sm_state m.

(** [listeners.forEach(listener => listener(state, prevState))] *)
Definition notify (listeners : list nat) (state prevState : gmap string JValue)
  : list Notification :=
  List.map (fun l => mkNotification l state prevState) listeners.

(** [state = { ...state, ...newState }]: the keys of [newState] win. *)
Definition setState (newState : gmap string JValue) (m : StateManager) : StateManager :=
  let prevState := sm_state m in
  let state := newState ∪ sm_state m in
  mkStateManager (sm_initial m) state (sm_listeners m)
    (sm_calls m ++ notify (sm_listeners m) state prevState).

Definition subscribe (listener : nat) (m : StateManager) : StateManager :=
  mkStateManager (sm_initial m) (sm_state m) (sm_listeners m ++ [listener]) (sm_calls m).

(** [listeners.indexOf(listener)]; [None] is -1. *)
Fixpoint indexOf (listener : nat) (listeners : list nat) : option nat :=
  match listeners with
  | [] => None
  | l :: rest => if Nat.eqb l listener then Some O else S <$> indexOf listener rest
  end.

(** The function [subscribe(listener)] returned. *)
Definition unsubscribe (listener : nat) (m : StateManager) : StateManager :=
  match indexOf listener (sm_listeners m) with
  | Some index =>
      mkStateManager (sm_initial m) (sm_state m) (delete index (sm_listeners m)) (sm_calls m)
  | None => m
  end.

Definition reset (m : StateManager) : StateManager :=
  mkStateManager (sm_initial m) (sm_initial m) (sm_listeners m)
    (sm_calls m ++ notify (sm_listeners m) (sm_initial m) ∅).

Inductive ManagerOp : Type :=
| OpSetState (newState : gmap string JValue)
| OpSubscribe (listener : nat)
| OpUnsubscribe (listener : nat)
| OpReset.

Definition apply_op (m : StateManager) (op : ManagerOp) : StateManager :=
  match op with
  | OpSetState newState => setState newState m
  | OpSubscribe listener => subscribe listener m
  | OpUnsubscribe listener => unsubscribe listener m
  | OpReset => reset m
  end.

(** A sequence of calls on one manager, first call first. *)
Definition run_ops (ops : list ManagerOp) (m : StateManager) : StateManager :=
  fold_left apply_op ops m.
(** ** ValidationUtils.validateConfig *)

Record ValidationResult : Type := mkValidation {
  valid : bool;
  errors : list string;
  warnings : list string
}.

(** The array index a property key denotes, if it is the decimal text of a
    number without leading zeros. *)
Definition index_of_key (key : string) : option nat :=
  match NilEmpty.uint_of_string key with
  | Some u =>
      if String.eqb (string_of_N (N.of_uint u)) key then Some (N.to_nat (N.of_uint u))
      else None
  | None => None
  end.

(** The own property [key] of a JSON value: the properties of an object;
    [length] and the indices of an array or a string; nothing for [null],
    booleans and numbers.  [None] is: no such own property. *)
Definition own_property (v : JValue) (key : string) : option JValue :=
  match v with
  | JObj props => assoc key props
  | JArr items =>
      if String.eqb key "length" then Some (JNum (Z.of_nat (length items)))
      else i ← index_of_key key; items !! i
  | JStr s =>
      if String.eqb key "length" then Some (JNum (Z.of_nat (String.length s)))
      else i ← index_of_key key; c ← String.get i s; Some (JStr (String c EmptyString))
  | _ => None
  end.

(** [config.hasOwnProperty(field)].  The method is inherited unless the
    configuration has a property of that name itself, which, coming from
    JSON, is not a function. *)
Definition hasOwnProperty (config : JValue) (field : string) : Completion bool :=
  match config with
  | JNull =>
      Throw (mkError TypeErrorC
               ("Cannot read properties of null (reading " +:+ sq +:+ "hasOwnProperty" +:+ sq
                +:+ ")") None)
  | _ =>
      match own_property config "hasOwnProperty" with
      | Some _ => Throw (not_a_function "config.hasOwnProperty")
      | None => Normal (bool_decide (is_Some (own_property config field)))
      end
  end.

(** The test of the first loop: the field is missing, or [null]. *)
Definition field_missing (config : JValue) (field : string) : Completion bool :=
  has ← hasOwnProperty config field;
  mret (negb (has : bool) ||
        match own_property config field with
        | Some JNull => true
        | _ => false
        end).

(** [requiredFields.forEach(field => { if (...) errors.push(...) })] *)
Fixpoint check_required (config : JValue) (requiredFields : list string) (errors : list string)
  : Completion (list string) :=
  match requiredFields with
  | [] => Normal errors
  | field :: rest =>
      missing ← field_missing config field;
      check_required config rest
        (if (missing : bool) then errors ++ ["Missing required field: " +:+ field] else errors)
  end.

Definition is_array (v : JsVal) : bool :=
  match v with
  | Some (JArr _) => true
  | _ => false
  end.

(** [typeof v !== 'number' || v <= 0] *)
Definition bad_time_limit (v : JsVal) : bool :=
  match v with
  | Some (JNum z) => z <=? 0
  | _ => true
  end.

Definition ValidationUtils_validateConfig (config : JValue) (requiredFields : list string)
  : Completion ValidationResult :=
  errors1 ← check_required config requiredFields [];
  cards ← get_prop config "cards";
  let errors2 :=
    if truthy cards && negb (is_array cards) then errors1 ++ ["Cards must be an array"]
    else errors1 in
  timeLimit ← get_prop config "timeLimit";
  let warnings2 :=
    if truthy timeLimit && bad_time_limit timeLimit
    then ["Invalid time limit, using default"] else [] in
  mret (mkValidation (Nat.eqb (length errors2) 0) errors2 warnings2).

(** A required field is there: an own property whose value is not [null]. *)
Definition field_present (props : list (string * JValue)) (field : string) : bool :=
  match assoc field props with
  | Some JNull => false
  | Some _ => true
  | None => false
  end.
(** ** admin/editor.js: the configuration editor *)

Fixpoint trimStart (s : string) : string :=
  match s with
  | EmptyString => EmptyString
  | String c s' => if is_js_space c then trimStart s' else s
  end.

Fixpoint trimEnd (s : string) : string :=
  match s with
  | EmptyString => EmptyString
  | String c s' =>
      let t := trimEnd s' in
      if is_empty t && is_js_space c then EmptyString else String c t
  end.

(** [String.prototype.trim] *)
Definition trim (s : string) : string := trimEnd (trimStart s).

(** [s.split('\n')] *)
Fixpoint split_lines (s : string) : list string :=
  match s with
  | EmptyString => [EmptyString]
  | String c s' =>
      if (N_of_ascii c =? 10)%N then EmptyString :: split_lines s'
      else match split_lines s' with
           | line :: lines => String c line :: lines
           | [] => [String c EmptyString]
           end
  end.

(** [s.padStart(targetLength, c)] for a one-character filler. *)
Definition padStart (s : string) (targetLength : nat) (c : ascii) : string :=
  string_of_list_ascii (repeat c (targetLength - String.length s)) +:+ s.

(** [parseInt(s, 10)]: leading white space, a sign, then as many decimal
    digits as there are; [None] is NaN. *)
Definition parseInt (s : string) : option Z :=
  let s1 := trimStart s in
  let signed :=
    match strip 45 s1 with
    | Some r => (-1, r)
    | None => match strip 43 s1 with
              | Some r => (1, r)
              | None => (1, s1)
              end
    end in
  let digits := fst (span_digits (snd signed)) in
  if is_empty digits then None
  else u ← NilEmpty.uint_of_string digits; Some (fst signed * Z.of_N (N.of_uint u)).

(** [String(n)] for a number that may be NaN. *)
Definition number_to_string (n : option Z) : string :=
  match n with
  | Some z => string_of_Z z
  | None => "NaN"
  end.

Definition game_number_key : string := "3c_next_game_number".

(** [nextGameNumber()]: the number returned and [localStorage] after. *)
Definition nextGameNumber (localStorage : gmap string string) : option Z * gmap string string :=
  let stored := localStorage !! game_number_key in
  let n := (fun z => z + 1) <$> parseInt (if nonempty stored then default "" stored else "0") in
  (n, <[game_number_key := number_to_string n]> localStorage).

(** What the editor reads from its form. *)
Record EditorInputs : Type := mkEditorInputs {
  titleInput_value : string;
  themeSelect_value : string;
  messagesInput_value : string
}.

(** What the editor writes: [localStorage] and the two read-only fields. *)
Record EditorState : Type := mkEditorState {
  localStorage : gmap string string;
  slugInput_value : string;
  gameNumberInput_value : string
}.

Record EditorMeta : Type := mkEditorMeta {
  meta_title : string;
  meta_slug : string;
  meta_gameNumber : string;
  meta_theme : string
}.

(** The card built from the [i]-th message (counting from 0). *)
Definition editor_card (i : nat) (m : string) : JValue :=
  JObj [("id", JNum (Z.of_nat i + 1));
        ("frontImage", JStr ("card" +:+ string_of_Z (Z.of_nat i + 1) +:+ ".png"));
        ("message", JStr m)].

Definition editor_messages (text : string) : list string :=
  List.filter (fun s => negb (is_empty s)) (List.map trim (split_lines text)).

Definition editor_settings : JValue :=
  JObj [("cardFlipSpeed", JNum 500); ("displayMs", JNum 2200);
        ("stayOpen", JBool false); ("allowReplay", JBool true)].

Definition buildConfig (inputs : EditorInputs) (st : EditorState)
  : (EditorMeta * JValue) * EditorState :=
  let title :=
    if is_empty (trim (titleInput_value inputs)) then "Pick Your 3C Card"
    else trim (titleInput_value inputs) in
  let theme :=
    if is_empty (themeSelect_value inputs) then "theme1" else themeSelect_value inputs in
  let messages := editor_messages (messagesInput_value inputs) in
  let cards := imap editor_card messages in
  let slug := formatSlug title in
  let '(n, localStorage') := nextGameNumber (localStorage st) in
  let gameNumber := "game-" +:+ padStart (number_to_string n) 3 "0" in
  ((mkEditorMeta title slug gameNumber theme,
    JObj [("gameType", JStr "card-flip"); ("theme", JStr theme); ("title", JStr title);
          ("cards", JArr cards); ("settings", editor_settings)]),
   mkEditorState localStorage' slug gameNumber).


(** [k] calls of [nextGameNumber] in a row. *)
Fixpoint after_calls (k : nat) (localStorage : gmap string string) : gmap string string :=
  match k with
  | O => localStorage
  | S k' => snd (nextGameNumber (after_calls k' localStorage))
  end.

(** Does the text start with something else than white space? *)
Definition head_not_space (s : string) : bool :=
  match s with
  | EmptyString => true
  | String c _ => negb (is_js_space c)
  end.

(** ** The earlier loader (main.js, "loader.js (module)")

    The module loader that main.js still carries next to the enhanced one:
    no validation, no status check on an override URL, one message for
    every failure. *)

Definition legacy_fetchConfigFromUrlOrName (w : World) : M JValue :=
  let urlParams := query w in
  let configUrl := params_get "configUrl" urlParams in
  let configName :=
    if nonempty (params_get "configName" urlParams)
    then default "" (params_get "configName" urlParams) else "card-flip" in
  if nonempty configUrl then
    r ← do_fetch w (default "" configUrl);
    liftC (json r)
  else
    r ← do_fetch w ("config/" +:+ configName +:+ ".json");
    if negb (ok r) then throw (newError "Config file not found")
    else liftC (json r).

(** The earlier [applyTheme]: silent without a theme; sets the image, size
    and position of the body background (not its repetition) and
    [--card-back]; preloads nothing. *)
Definition legacy_applyTheme (themeName : JsVal) : M unit :=
  if negb (truthy themeName) then mret tt
  else
    fun p =>
      (Normal tt,
       mkPage (mkBodyStyle (css_url (theme_asset themeName "bg.png")) "cover" "center"
                 (backgroundRepeat (bodyStyle p)))
         (<["--card-back" := css_url (theme_asset themeName "card-back.png")]> (rootStyle p))
         (container p) (events p)).

Definition legacy_error_html (message : string) : string :=
  "<div class=" +:+ dq +:+ "loader-message" +:+ dq +:+ "><p>" +:+ message +:+ "</p></div>".

Definition legacy_showError (message : string) : M unit :=
  set_container [Markup (legacy_error_html message)].

Definition legacy_failure_message : string := "Failed to load game. Check console for details.".

Definition legacy_loadGame (w : World) : M unit :=
  try_catch
    (config ← legacy_fetchConfigFromUrlOrName w;
     theme ← liftC (get_prop config "theme");
     legacy_applyTheme theme;;
     gameType ← liftC (get_prop config "gameType");
     module ← do_import w ("./games/" +:+ js_string gameType +:+ ".js");
     set_container [];;
     call_startGame module config)
    (fun err =>
       emit (ConsoleError "Loader error:" err);;
       legacy_showError legacy_failure_message).

(** * Properties *)

Ltac run :=
  unfold initialize, pipeline, fetchConfigFromUrlOrName, fetchFromUrl, fetchFromName,
    do_fetch, try_catch, throw, liftC, emit, set_container, showLoading, showError,
    mbind, M_bind, mret, M_ret in *.

(** ** Strings *)

Lemma sapp_assoc (a b c : string) : (a +:+ b) +:+ c = a +:+ (b +:+ c).
Proof.
  induction a as [|x a IH]; [reflexivity|].
  change (String x ((a +:+ b) +:+ c) = String x (a +:+ (b +:+ c))). rewrite IH. reflexivity.
Qed.

Lemma sapp_nil_r (a : string) : a +:+ "" = a.
Proof.
  induction a as [|x a IH]; [reflexivity|].
  change (String x (a +:+ "") = String x a). rewrite IH. reflexivity.
Qed.

Lemma sapp_cons (x : ascii) (a b : string) : String x a +:+ b = String x (a +:+ b).
Proof. reflexivity. Qed.


(** ** Step equations of the loader *)

Lemma fetchConfig_run w p :
  fetchConfigFromUrlOrName w p
  = (config_outcome w, add_events p [Fetched (config_url (query w))]).
Proof.
  unfold config_outcome, config_url, overridden, config_name, add_events. run.
  destruct (nonempty (params_get "configUrl" (query w))); simpl.
  - destruct (fetch w _) as [e|r]; simpl; [reflexivity|].
    destruct (ok r); simpl; [|reflexivity].
    destruct (json r); reflexivity.
  - destruct (fetch w _) as [e|r]; simpl; [reflexivity|].
    destruct (ok r); simpl.
    + destruct (json r); reflexivity.
    + destruct (status r =? 404)%N; reflexivity.
Qed.

Lemma config_outcome_ConfigError w e :
  config_outcome w = Throw e -> eclass e = ConfigErrorC.
Proof.
  unfold config_outcome. run.
  destruct (nonempty (params_get "configUrl" (query w))); simpl.
  - destruct (fetch w _) as [e'|r]; simpl; [intros [= <-]; reflexivity|].
    destruct (ok r); simpl; [|intros [= <-]; reflexivity].
    destruct (json r); simpl; [discriminate|intros [= <-]; reflexivity].
  - destruct (fetch w _) as [e'|r]; simpl; [intros [= <-]; reflexivity|].
    destruct (ok r); simpl.
    + destruct (json r); simpl; [discriminate|intros [= <-]; reflexivity].
    + destruct (status r =? 404)%N; simpl; intros [= <-]; reflexivity.
Qed.

(** The [catch] block of [initialize]. *)
Lemma handler_run e p :
  (emit (ConsoleError "Game loader error:" e);;
   showError (userMessage e) (Some (message e))) p
  = (Normal tt,
     mkPage (bodyStyle p) (rootStyle p)
       [Markup (error_html (userMessage e) (Some (message e)))]
       (events p ++ [ConsoleError "Game loader error:" e])).
Proof. reflexivity. Qed.

Lemma failed_page_add p evs e c :
  mkPage (bodyStyle p) (rootStyle p)
    [Markup (error_html (userMessage e) (Some (message e)))]
    (events (mkPage (bodyStyle p) (rootStyle p) c (events p ++ evs))
     ++ [ConsoleError "Game loader error:" e])
  = failed_page p evs e.
Proof. unfold failed_page. simpl. rewrite <- app_assoc. reflexivity. Qed.

(** A failed configuration step ends the run in the error view. *)
Lemma initialize_config_failure w p e :
  config_outcome w = Throw e ->
  initialize w p = (Normal tt, failed_page p [Fetched (config_url (query w))] e).
Proof.
  intros H. unfold initialize, pipeline, try_catch.
  unfold mbind at 1, M_bind at 1. unfold showLoading at 1, set_container at 1.
  unfold mbind at 1, M_bind at 1. rewrite fetchConfig_run, H.
  rewrite handler_run. unfold add_events. simpl bodyStyle. simpl rootStyle.
  rewrite <- (failed_page_add p _ e [Markup (loading_html "Loading configuration...")]).
  reflexivity.
Qed.

(** ** ThemeManager *)

Lemma preloadThemeAssets_run w themeName p :
  preloadThemeAssets w themeName p
  = (Normal tt,
     add_events p [ImageRequested (theme_asset themeName "bg.png");
                   ImageRequested (theme_asset themeName "card-back.png");
                   ConsoleLog ("Theme " +:+ sq +:+ js_string themeName +:+ sq
                               +:+ " assets preloaded")]).
Proof.
  unfold preloadThemeAssets, mapM, preload_image, add_events. run. simpl.
  destruct (imageLoads w _), (imageLoads w _); simpl;
    rewrite <- !app_assoc; reflexivity.
Qed.

Lemma applyTheme_run w themeName p :
  applyTheme w themeName p = (Normal tt, themed themeName p).
Proof.
  unfold applyTheme, themed. destruct (truthy themeName); simpl; [|reflexivity].
  unfold mbind, M_bind, setBackground, set_bodyStyle, setCardBack, setProperty, not_awaited.
  simpl. rewrite preloadThemeAssets_run. reflexivity.
Qed.

(** ** GameManager *)

Lemma loadGameModule_run w gameType p :
  loadGameModule w gameType p
  = (module_outcome w gameType, add_events p [Imported (module_path gameType)]).
Proof.
  unfold module_outcome, loadGameModule, do_import, module_path, add_events. run. simpl.
  destruct (import w _) as [e|m]; simpl.
  - destruct (includes (message e) _); reflexivity.
  - destruct (mod_startGame m); simpl; [reflexivity|].
    destruct (includes _ _); reflexivity.
Qed.

Lemma module_outcome_has_startGame w gameType m :
  module_outcome w gameType = Normal m -> exists f, mod_startGame m = Some f.
Proof.
  unfold module_outcome, loadGameModule, do_import. run. simpl.
  destruct (import w _) as [e|m']; simpl.
  - destruct (includes (message e) _); discriminate.
  - destruct (mod_startGame m') as [f|] eqn:Hf; simpl.
    + intros [= <-]. eauto.
    + destruct (includes _ _); discriminate.
Qed.

Lemma initializeGame_run m f config p :
  mod_startGame m = Some f -> config <> JNull ->
  initializeGame m config p
  = match f config [] with
    | (Normal _, children) =>
        (Normal tt,
         mkPage (bodyStyle p) (rootStyle p) children
           (events p ++ [GameStarted;
                         ConsoleLog ("Game " +:+ sq +:+ js_string (prop config "gameType") +:+ sq
                                     +:+ " initialized successfully")]))
    | (Throw e, children) =>
        (Throw (newError ("Failed to initialize game: " +:+ message e)),
         mkPage (bodyStyle p) (rootStyle p) children (events p ++ [GameStarted]))
    end.
Proof.
  intros Hf Hc. unfold initializeGame, call_startGame, on_container. rewrite Hf. run. simpl.
  destruct (f config []) as [[[]|e] children]; simpl; [|reflexivity].
  destruct config; try contradiction; simpl; rewrite <- app_assoc; reflexivity.
Qed.

(** ** ConfigManager.validateConfig *)

Lemma validateConfig_cases config :
  validateConfig config =
  match config with
  | JNull =>
      Throw (mkError TypeErrorC
               ("Cannot read properties of null (reading " +:+ sq +:+ "gameType" +:+ sq +:+ ")")
               None)
  | _ =>
      if truthy (prop config "gameType") then Normal true
      else Throw (newError "Missing required config fields: gameType")
  end.
Proof.
  unfold validateConfig, required, filter_missing.
  destruct config; simpl; try reflexivity;
    match goal with |- context [truthy ?v] => destruct (truthy v) end; reflexivity.
Qed.

Lemma validateConfig_Normal config b :
  validateConfig config = Normal b ->
  b = true /\ config <> JNull /\ truthy (prop config "gameType") = true.
Proof.
  rewrite validateConfig_cases. destruct config; try discriminate;
    match goal with |- context [truthy ?v] => destruct (truthy v) eqn:Ht end;
    try discriminate; intros [= <-]; repeat split; congruence.
Qed.


Lemma get_prop_nonnull config k : config <> JNull -> get_prop config k = Normal (prop config k).
Proof. destruct config; try reflexivity. contradiction. Qed.

(** ** GameLoader.initialize, step by step *)

Ltac step := unfold mbind at 1, M_bind at 1.

Lemma initialize_validation_failure w p config e :
  config_outcome w = Normal config -> validateConfig config = Throw e ->
  initialize w p = (Normal tt, failed_page p [Fetched (config_url (query w))] e).
Proof.
  intros Hc Hv. unfold initialize, pipeline, try_catch.
  step. unfold showLoading at 1, set_container at 1.
  step. rewrite fetchConfig_run, Hc.
  step. unfold liftC at 1. rewrite Hv.
  rewrite handler_run. unfold add_events. simpl bodyStyle. simpl rootStyle.
  rewrite <- (failed_page_add p _ e [Markup (loading_html "Loading configuration...")]).
  reflexivity.
Qed.

(** The page when the module step starts. *)
Lemma pipeline_to_module w p config b :
  config_outcome w = Normal config -> validateConfig config = Normal b ->
  forall rest : JValue -> JsVal -> M unit,
  (showLoading "Loading configuration...";;
   config ← fetchConfigFromUrlOrName w;
   liftC (validateConfig config);;
   showLoading "Applying theme...";;
   theme ← liftC (get_prop config "theme");
   applyTheme w theme;;
   showLoading "Loading game module...";;
   gameType ← liftC (get_prop config "gameType");
   rest config gameType) p
  = rest config (prop config "gameType")
      (mkPage (bodyStyle (themed (prop config "theme") (add_events p [Fetched (config_url (query w))])))
              (rootStyle (themed (prop config "theme") (add_events p [Fetched (config_url (query w))])))
              [Markup (loading_html "Loading game module...")]
              (events (themed (prop config "theme") (add_events p [Fetched (config_url (query w))])))).
Proof.
  intros Hc Hv rest.
  destruct (validateConfig_Normal _ _ Hv) as (_ & Hnn & _).
  step. unfold showLoading at 1, set_container at 1.
  step. rewrite fetchConfig_run, Hc.
  step. unfold liftC at 1. rewrite Hv.
  step. unfold showLoading at 1, set_container at 1.
  step. unfold liftC at 1. rewrite (get_prop_nonnull _ "theme" Hnn).
  step. rewrite applyTheme_run.
  step. unfold showLoading at 1, set_container at 1.
  step. unfold liftC at 1. rewrite (get_prop_nonnull _ "gameType" Hnn).
  unfold themed, add_events. destruct (truthy (prop config "theme")); reflexivity.
Qed.

Lemma initialize_module_failure w p config b e :
  config_outcome w = Normal config -> validateConfig config = Normal b ->
  module_outcome w (prop config "gameType") = Throw e ->
  initialize w p
  = (Normal tt,
     failed_page (themed (prop config "theme") (add_events p [Fetched (config_url (query w))]))
       [Imported (module_path (prop config "gameType"))] e).
Proof.
  intros Hc Hv Hm. unfold initialize, pipeline, try_catch.
  rewrite (pipeline_to_module w p config b Hc Hv
             (fun config gameType => gameModule ← loadGameModule w gameType;
                                     showLoading "Initializing game...";;
                                     initializeGame gameModule config)).
  step. rewrite loadGameModule_run, Hm.
  rewrite handler_run. unfold failed_page, add_events.
  cbn [bodyStyle rootStyle events container]. rewrite <- !app_assoc. reflexivity.
Qed.

Lemma initialize_game_failure w p config b m f e children :
  config_outcome w = Normal config -> validateConfig config = Normal b ->
  module_outcome w (prop config "gameType") = Normal m ->
  mod_startGame m = Some f -> f config [] = (Throw e, children) ->
  initialize w p
  = (Normal tt,
     failed_page (themed (prop config "theme") (add_events p [Fetched (config_url (query w))]))
       [Imported (module_path (prop config "gameType")); GameStarted]
       (newError ("Failed to initialize game: " +:+ message e))).
Proof.
  intros Hc Hv Hm Hf He. unfold initialize, pipeline, try_catch.
  destruct (validateConfig_Normal _ _ Hv) as (_ & Hnn & _).
  rewrite (pipeline_to_module w p config b Hc Hv
             (fun config gameType => gameModule ← loadGameModule w gameType;
                                     showLoading "Initializing game...";;
                                     initializeGame gameModule config)).
  step. rewrite loadGameModule_run, Hm.
  step. unfold showLoading at 1, set_container at 1.
  rewrite (initializeGame_run m f config _ Hf Hnn), He.
  rewrite handler_run. unfold failed_page, add_events.
  cbn [bodyStyle rootStyle events container]. rewrite <- !app_assoc. reflexivity.
Qed.

(** A run in which every step succeeds ends with the game's output in the
    container and no error view. *)
Lemma initialize_success w p config b m f children :
  config_outcome w = Normal config -> validateConfig config = Normal b ->
  module_outcome w (prop config "gameType") = Normal m ->
  mod_startGame m = Some f -> f config [] = (Normal tt, children) ->
  initialize w p
  = (Normal tt,
     mkPage
       (bodyStyle (themed (prop config "theme") (add_events p [Fetched (config_url (query w))])))
       (rootStyle (themed (prop config "theme") (add_events p [Fetched (config_url (query w))])))
       children
       (events (themed (prop config "theme") (add_events p [Fetched (config_url (query w))]))
        ++ [Imported (module_path (prop config "gameType")); GameStarted;
            ConsoleLog ("Game " +:+ sq +:+ js_string (prop config "gameType") +:+ sq
                        +:+ " initialized successfully")])).
Proof.
  intros Hc Hv Hm Hf He. unfold initialize, pipeline, try_catch.
  destruct (validateConfig_Normal _ _ Hv) as (_ & Hnn & _).
  rewrite (pipeline_to_module w p config b Hc Hv
             (fun config gameType => gameModule ← loadGameModule w gameType;
                                     showLoading "Initializing game...";;
                                     initializeGame gameModule config)).
  step. rewrite loadGameModule_run, Hm.
  step. unfold showLoading at 1, set_container at 1.
  rewrite (initializeGame_run m f config _ Hf Hnn), He.
  unfold add_events. cbn [bodyStyle rootStyle events container].
  rewrite <- !app_assoc. reflexivity.
Qed.

(** ** ConfigManager.fetchConfigFromUrlOrName *)

Lemma fetchConfig_requests_config_url w p :
  events (snd (fetchConfigFromUrlOrName w p)) = events p ++ [Fetched (config_url (query w))].
Proof. rewrite fetchConfig_run. reflexivity. Qed.

Lemma nonempty_Some s : s <> "" -> nonempty (Some s) = true.
Proof. intros H. simpl. destruct (String.eqb_spec s ""); [contradiction|reflexivity]. Qed.

(** C1 (as amended): a run of [fetchConfigFromUrlOrName] issues exactly one
    request.  When [configUrl] is present with a non-empty value the request
    goes to exactly that URL; when [configUrl] is absent or empty the
    request goes to [config/<configName>.json], with [card-flip] for the
    name when [configName] is absent or empty. *)
Theorem fetchConfig_resolution w p :
  (forall url, params_get "configUrl" (query w) = Some url -> url <> "" ->
     events (snd (fetchConfigFromUrlOrName w p)) = events p ++ [Fetched url]) /\
  (nonempty (params_get "configUrl" (query w)) = false ->
   nonempty (params_get "configName" (query w)) = false ->
     events (snd (fetchConfigFromUrlOrName w p)) = events p ++ [Fetched "config/card-flip.json"]) /\
  (forall name, nonempty (params_get "configUrl" (query w)) = false ->
     params_get "configName" (query w) = Some name -> name <> "" ->
     events (snd (fetchConfigFromUrlOrName w p))
     = events p ++ [Fetched ("config/" +:+ name +:+ ".json")]).
Proof.
  rewrite fetchConfig_requests_config_url. unfold config_url, overridden, config_name.
  split; [|split].
  - intros url Hurl Hne. rewrite Hurl, (nonempty_Some _ Hne). reflexivity.
  - intros Hu Hn. rewrite Hu, Hn. reflexivity.
  - intros name Hu Hname Hne. rewrite Hu, Hname, (nonempty_Some _ Hne). reflexivity.
Qed.

Lemma fetchConfig_resolution_witness :
  events (snd (fetchConfigFromUrlOrName
                 (world_answering [("configUrl", "https://x.test/c.json"); ("configName", "memory")]
                    (mkResponse 200 "OK" (Normal JNull))) blank_page))
  = [Fetched "https://x.test/c.json"] /\
  events (snd (fetchConfigFromUrlOrName
                 (world_answering [] (mkResponse 200 "OK" (Normal JNull))) blank_page))
  = [Fetched "config/card-flip.json"] /\
  events (snd (fetchConfigFromUrlOrName
                 (world_answering [("configName", "memory")] (mkResponse 200 "OK" (Normal JNull)))
                 blank_page))
  = [Fetched "config/memory.json"].
Proof.
  split; [|split].
  - apply (proj1 (fetchConfig_resolution
                    (world_answering [("configUrl", "https://x.test/c.json"); ("configName", "memory")]
                       (mkResponse 200 "OK" (Normal JNull))) blank_page)
             "https://x.test/c.json"); [reflexivity | discriminate].
  - apply (proj1 (proj2 (fetchConfig_resolution
                    (world_answering [] (mkResponse 200 "OK" (Normal JNull))) blank_page)));
      reflexivity.
  - apply (proj2 (proj2 (fetchConfig_resolution
                    (world_answering [("configName", "memory")] (mkResponse 200 "OK" (Normal JNull)))
                    blank_page)) "memory"); [reflexivity | reflexivity | discriminate].
Defined.

(** C1 as stated fails: with [?configUrl=] in the query the parameter is
    present, yet the request goes to the named-config path. *)
Lemma fetchConfig_empty_configUrl_counterexample :
  params_get "configUrl" [("configUrl", "")] = Some "" /\
  events (snd (fetchConfigFromUrlOrName
                 (world_answering [("configUrl", "")] (mkResponse 200 "OK" (Normal JNull)))
                 blank_page))
  = [Fetched "config/card-flip.json"] /\
  events (snd (fetchConfigFromUrlOrName
                 (world_answering [("configUrl", "")] (mkResponse 200 "OK" (Normal JNull)))
                 blank_page))
  <> [Fetched ""].
Proof. split; [reflexivity|split; [reflexivity|discriminate]]. Qed.


(** ** ConfigManager.validateConfig *)

(** C4 (as amended): [validateConfig] throws exactly when [config.gameType]
    is falsy, that is absent, [null], [false], [0] or the empty string
    (reading it from a [null] configuration throws as well); when
    [gameType] is truthy it returns [true]. *)
Theorem validateConfig_throws_iff_falsy config :
  ((exists e, validateConfig config = Throw e) <-> truthy (prop config "gameType") = false) /\
  (truthy (prop config "gameType") = true -> validateConfig config = Normal true) /\
  (config <> JNull -> truthy (prop config "gameType") = false ->
   validateConfig config = Throw (newError "Missing required config fields: gameType")).
Proof.
  rewrite validateConfig_cases. split; [split|split].
  - intros [e He]. destruct config; try reflexivity;
      destruct (truthy _) eqn:Ht; congruence.
  - intros Hf. destruct config; try (rewrite Hf); eauto.
  - intros Ht. destruct config; try (rewrite Ht; reflexivity); discriminate.
  - intros Hn Hf. destruct config; try (rewrite Hf; reflexivity); contradiction.
Qed.

Lemma validateConfig_throws_iff_falsy_witness :
  validateConfig (JObj [("gameType", JStr "card-flip")]) = Normal true /\
  validateConfig (JObj [("theme", JStr "ocean")])
  = Throw (newError "Missing required config fields: gameType").
Proof.
  split.
  - apply (proj1 (proj2 (validateConfig_throws_iff_falsy (JObj [("gameType", JStr "card-flip")])))).
    reflexivity.
  - apply (proj2 (proj2 (validateConfig_throws_iff_falsy (JObj [("theme", JStr "ocean")]))));
      [discriminate | reflexivity].
Defined.

(** C4 as stated fails: a configuration in which [gameType] is present but
    empty (or [0]) makes [validateConfig] throw. *)
Lemma validateConfig_present_gameType_counterexample :
  prop (JObj [("gameType", JStr "")]) "gameType" = Some (JStr "") /\
  validateConfig (JObj [("gameType", JStr "")])
  = Throw (newError "Missing required config fields: gameType") /\
  prop (JObj [("gameType", JNum 0)]) "gameType" = Some (JNum 0) /\
  validateConfig (JObj [("gameType", JNum 0)])
  = Throw (newError "Missing required config fields: gameType").
Proof. repeat split. Qed.

(** ** Error classes raised by the pipeline *)

(** What the configuration step reports for a response whose status is not
    a success. *)
Lemma config_outcome_not_ok w r :
  fetch w (config_url (query w)) = Responded r -> ok r = false ->
  config_outcome w
  = Throw (newConfigError
             ("Failed to load configuration: " +:+
              (if negb (overridden (query w)) && (status r =? 404)%N
               then "Config file " +:+ sq +:+ config_name (query w) +:+ ".json" +:+ sq
                    +:+ " not found"
               else "HTTP " +:+ string_of_N (status r) +:+ ": " +:+ statusText r))
             None).
Proof.
  unfold config_outcome, config_url, overridden, config_name. run.
  destruct (nonempty (params_get "configUrl" (query w))); simpl;
    intros -> Hok; simpl; rewrite Hok; simpl; [reflexivity|].
  destruct (status r =? 404)%N; reflexivity.
Qed.

Lemma config_outcome_parse_failure w r e :
  fetch w (config_url (query w)) = Responded r -> ok r = true -> json r = Throw e ->
  config_outcome w
  = Throw (newConfigError ("Failed to load configuration: " +:+ message e) (etype e)).
Proof.
  unfold config_outcome, config_url, overridden, config_name. run.
  destruct (nonempty (params_get "configUrl" (query w))); simpl;
    intros -> Hok Hj; simpl; rewrite Hok; simpl; rewrite Hj; reflexivity.
Qed.

Lemma module_outcome_rejected w gameType e :
  import w (module_path gameType) = ImportRejected e ->
  module_outcome w gameType
  = Throw (if includes (message e) "Failed to resolve module"
           then newError ("Game module " +:+ sq +:+ js_string gameType +:+ ".js" +:+ sq
                          +:+ " not found")
           else e).
Proof.
  unfold module_outcome, loadGameModule, do_import, module_path. run. simpl.
  intros ->. simpl. destruct (includes (message e) _); reflexivity.
Qed.

Lemma module_outcome_no_startGame w gameType m :
  import w (module_path gameType) = ImportResolved m -> mod_startGame m = None ->
  module_outcome w gameType
  = Throw (newError
             (if includes ("Game module " +:+ sq +:+ js_string gameType +:+ sq
                           +:+ " missing startGame function") "Failed to resolve module"
              then "Game module " +:+ sq +:+ js_string gameType +:+ ".js" +:+ sq +:+ " not found"
              else "Game module " +:+ sq +:+ js_string gameType +:+ sq
                   +:+ " missing startGame function")).
Proof.
  unfold module_outcome, loadGameModule, do_import, module_path. run. simpl.
  intros -> Hs. simpl. rewrite Hs. simpl. destruct (includes _ _); reflexivity.
Qed.

(** C5 (as amended): every failure of the configuration step, a
    non-success status and a JSON parse failure among them, surfaces as a
    [ConfigError]; for a non-success status its type is [CONFIG_ERROR] and
    its message carries the HTTP status, except for a 404 on the named
    path, where it names the missing file instead.  A rejected module
    import whose message contains [Failed to resolve module] is re-raised
    as a plain [Error] saying the module was not found, any other rejection
    is re-raised unchanged, and a module without a [startGame] function
    raises a plain [Error]. *)
Theorem pipeline_error_classes w :
  (forall e, config_outcome w = Throw e -> error_name e = "ConfigError") /\
  (forall r, fetch w (config_url (query w)) = Responded r -> ok r = false ->
     exists e, config_outcome w = Throw e /\ error_name e = "ConfigError" /\
       etype e = Some "CONFIG_ERROR" /\
       message e = "Failed to load configuration: " +:+
         (if negb (overridden (query w)) && (status r =? 404)%N
          then "Config file " +:+ sq +:+ config_name (query w) +:+ ".json" +:+ sq +:+ " not found"
          else "HTTP " +:+ string_of_N (status r) +:+ ": " +:+ statusText r)) /\
  (forall r e0, fetch w (config_url (query w)) = Responded r -> ok r = true ->
     json r = Throw e0 ->
     exists e, config_outcome w = Throw e /\ error_name e = "ConfigError" /\
       message e = "Failed to load configuration: " +:+ message e0) /\
  (forall gameType e0, import w (module_path gameType) = ImportRejected e0 ->
     module_outcome w gameType
     = Throw (if includes (message e0) "Failed to resolve module"
              then newError ("Game module " +:+ sq +:+ js_string gameType +:+ ".js" +:+ sq
                             +:+ " not found")
              else e0)) /\
  (forall gameType m, import w (module_path gameType) = ImportResolved m ->
     mod_startGame m = None ->
     exists e, module_outcome w gameType = Throw e /\ error_name e = "Error").
Proof.
  split; [|split; [|split; [|split]]].
  - intros e He. unfold error_name. rewrite (config_outcome_ConfigError w e He). reflexivity.
  - intros r Hf Hok. eexists. split; [apply (config_outcome_not_ok _ _ Hf Hok)|].
    repeat split.
  - intros r e0 Hf Hok Hj. eexists.
    split; [apply (config_outcome_parse_failure _ _ _ Hf Hok Hj)|]. repeat split.
  - intros gameType e0. apply module_outcome_rejected.
  - intros gameType m Hi Hs. eexists.
    split; [apply (module_outcome_no_startGame _ _ _ Hi Hs)|]. reflexivity.
Qed.

Lemma pipeline_error_classes_witness :
  exists e,
    config_outcome (world_answering [] (mkResponse 500 "Internal Server Error" (Normal JNull)))
    = Throw e /\ error_name e = "ConfigError" /\ etype e = Some "CONFIG_ERROR" /\
    message e = "Failed to load configuration: HTTP 500: Internal Server Error".
Proof.
  apply (proj1 (proj2 (pipeline_error_classes
                  (world_answering [] (mkResponse 500 "Internal Server Error" (Normal JNull)))))
           (mkResponse 500 "Internal Server Error" (Normal JNull))); reflexivity.
Defined.

(** C5 as stated fails: the error for a status 500 is a [ConfigError], not
    a [ConfigFetchError]; for a 404 on the named path its message does not
    carry the status; a module without [startGame] raises a plain [Error]. *)
Lemma pipeline_error_classes_counterexample :
  (exists e,
     config_outcome (world_answering [] (mkResponse 500 "Internal Server Error" (Normal JNull)))
     = Throw e /\ error_name e = "ConfigError" /\ error_name e <> "ConfigFetchError") /\
  (exists e,
     config_outcome (world_answering [] (mkResponse 404 "Not Found" (Normal JNull)))
     = Throw e /\ includes (message e) "404" = false) /\
  (exists e,
     module_outcome (mkWorld [] (fun _ => FetchRejected (newError "offline"))
                       (fun _ => ImportResolved (mkModule None)) (fun _ => true))
       (Some (JStr "card-flip"))
     = Throw e /\ error_name e = "Error" /\ error_name e <> "GameModuleInvalidError").
Proof.
  split; [|split]; eexists; (split; [reflexivity|]);
    try split; try reflexivity; discriminate.
Qed.

(** ** GameLoader.initialize: failures *)



(** Every run ends normally, in one of five ways: the four failures above
    or the game running. *)
Lemma initialize_outcomes w p :
  fst (initialize w p) = Normal tt /\
  ((exists e evs p0, snd (initialize w p) = failed_page p0 evs e) \/
   (exists config m f children,
      config_outcome w = Normal config /\ mod_startGame m = Some f /\
      f config [] = (Normal tt, children) /\ container (snd (initialize w p)) = children)).
Proof.
  destruct (config_outcome w) as [config|e] eqn:Hc.
  2:{ rewrite (initialize_config_failure w p e Hc). split; [reflexivity|]. left. eauto. }
  destruct (validateConfig config) as [b|e] eqn:Hv.
  2:{ rewrite (initialize_validation_failure w p config e Hc Hv). split; [reflexivity|].
      left. eauto. }
  destruct (module_outcome w (prop config "gameType")) as [m|e] eqn:Hm.
  2:{ rewrite (initialize_module_failure w p config b e Hc Hv Hm). split; [reflexivity|].
      left. eauto. }
  destruct (module_outcome_has_startGame _ _ _ Hm) as [f Hf].
  destruct (f config []) as [[[]|e] children] eqn:He.
  - rewrite (initialize_success w p config b m f children Hc Hv Hm Hf He).
    split; [reflexivity|]. right. exists config, m, f, children. repeat split; assumption.
  - rewrite (initialize_game_failure w p config b m f e children Hc Hv Hm Hf He).
    split; [reflexivity|]. left. eauto.
Qed.

(** C3 (as amended): when the configuration request is answered with
    status 404, the message shown to the user is the configuration-error
    message; the technical detail below it says that the file was not
    found (named path) or gives the status line (override URL). *)
Theorem config_404_shows_config_error w p r :
  fetch w (config_url (query w)) = Responded r -> status r = 404%N ->
  exists details,
    container (snd (initialize w p)) = [Markup (error_html msg_config (Some details))] /\
    details = "Failed to load configuration: " +:+
      (if overridden (query w) then "HTTP 404: " +:+ statusText r
       else "Config file " +:+ sq +:+ config_name (query w) +:+ ".json" +:+ sq +:+ " not found").
Proof.
  intros Hf Hs.
  assert (Hok : ok r = false) by (unfold ok; rewrite Hs; reflexivity).
  pose proof (config_outcome_not_ok w r Hf Hok) as Hc.
  rewrite (initialize_config_failure w p _ Hc). eexists. split; [reflexivity|].
  rewrite Hs. simpl. destruct (overridden (query w)); reflexivity.
Qed.

Lemma config_404_shows_config_error_witness :
  exists details,
    container (snd (initialize (world_answering [] (mkResponse 404 "Not Found" (Normal JNull)))
                      blank_page))
    = [Markup (error_html msg_config (Some details))] /\
    details = "Failed to load configuration: " +:+
      (if overridden [] then "HTTP 404: " +:+ "Not Found"
       else "Config file " +:+ sq +:+ config_name [] +:+ ".json" +:+ sq +:+ " not found").
Proof.
  apply (config_404_shows_config_error
           (world_answering [] (mkResponse 404 "Not Found" (Normal JNull))) blank_page
           (mkResponse 404 "Not Found" (Normal JNull))); reflexivity.
Defined.

(** C3 as stated fails: on a 404 the container shows the configuration-error
    message, not the missing-files message. *)
Lemma config_404_counterexample :
  container (snd (initialize (world_answering [] (mkResponse 404 "Not Found" (Normal JNull)))
                    blank_page))
  = [Markup (error_html msg_config
               (Some "Failed to load configuration: Config file 'card-flip.json' not found"))] /\
  container (snd (initialize (world_answering [] (mkResponse 404 "Not Found" (Normal JNull)))
                    blank_page))
  <> [Markup (error_html msg_missing
                (Some "Failed to load configuration: Config file 'card-flip.json' not found"))].
Proof. split; [reflexivity|discriminate]. Qed.

(** ** ThemeManager *)

Lemma preload_promises_fulfilled w srcs p :
  Forall (fun c => c = Normal tt) (match fst (mapM (preload_image w) srcs p) with
                                   | Normal l => l
                                   | Throw _ => [Throw (newError "")]
                                   end).
Proof.
  revert p. induction srcs as [|src srcs IH]; intros p; simpl; [constructor|].
  unfold mbind, M_bind, preload_image at 1, emit, mret, M_ret. simpl.
  specialize (IH (mkPage (bodyStyle p) (rootStyle p) (container p)
                    (events p ++ [ImageRequested src]))).
  destruct (mapM (preload_image w) srcs _) as [[l|e] p']; simpl in *.
  - constructor; [destruct (imageLoads w src); reflexivity|assumption].
  - inversion IH; discriminate.
Qed.

Lemma promise_all_fulfilled (ps : list (Completion unit)) :
  Forall (fun c => c = Normal tt) ps -> exists l, promise_all ps = Normal l.
Proof.
  induction 1 as [|c ps Hc _ [l IH]]; simpl; [eauto|].
  subst c. unfold mbind, Completion_bind. rewrite IH. simpl. eauto.
Qed.

(** C6: whatever the two image loads do, [preloadThemeAssets] completes
    normally: both requests are issued, the join is fulfilled, the success
    message is logged and the warning of the [catch] branch never is; so
    [applyTheme] completes normally too. *)
Theorem preload_never_fails w themeName p :
  preloadThemeAssets w themeName p
  = (Normal tt,
     add_events p [ImageRequested (theme_asset themeName "bg.png");
                   ImageRequested (theme_asset themeName "card-back.png");
                   ConsoleLog ("Theme " +:+ sq +:+ js_string themeName +:+ sq
                               +:+ " assets preloaded")]) /\
  (forall err, ~ In (ConsoleWarn "Some theme assets failed to preload:" err)
                    [ImageRequested (theme_asset themeName "bg.png");
                     ImageRequested (theme_asset themeName "card-back.png");
                     ConsoleLog ("Theme " +:+ sq +:+ js_string themeName +:+ sq
                                 +:+ " assets preloaded")]) /\
  (forall srcs p0, exists l,
      fst (mapM (preload_image w) srcs p0) = Normal l /\
      Forall (fun c => c = Normal tt) l /\
      exists vs, promise_all l = Normal vs) /\
  fst (applyTheme w themeName p) = Normal tt.
Proof.
  split; [apply preloadThemeAssets_run|]. split; [|split].
  - intros err H. simpl in H. destruct H as [H|[H|[H|H]]]; try discriminate. exact H.
  - intros srcs p0. pose proof (preload_promises_fulfilled w srcs p0) as H.
    destruct (fst (mapM (preload_image w) srcs p0)) as [l|e].
    + exists l. split; [reflexivity|]. split; [assumption|].
      apply promise_all_fulfilled; assumption.
    + inversion H; discriminate.
  - rewrite applyTheme_run. reflexivity.
Qed.



(** ** games/card-flip.js: escapeHtml *)

Lemma replace_all_app c r a b :
  replace_all c r (a +:+ b) = replace_all c r a +:+ replace_all c r b.
Proof.
  induction a as [|x a IH]; [reflexivity|].
  rewrite sapp_cons. simpl. rewrite IH. destruct (Ascii.eqb x c).
  - rewrite sapp_assoc. reflexivity.
  - rewrite sapp_cons. reflexivity.
Qed.

Ltac eqb_case c x E :=
  destruct (Ascii.eqb c x) eqn:E;
  [apply Ascii.eqb_eq in E; subst c; reflexivity|].

Lemma escape_one c :
  replace_all ">" "&gt;"
    (replace_all "<" "&lt;"
       (replace_all "034" "&quot;" (replace_all "&" "&amp;" (String c EmptyString))))
  = escape_char c.
Proof.
  unfold escape_char.
  eqb_case c "&"%char E1. eqb_case c "034"%char E2.
  eqb_case c "<"%char E3. eqb_case c ">"%char E4.
  simpl. rewrite E1. simpl. rewrite E2. simpl. rewrite E3. simpl. rewrite E4. reflexivity.
Qed.

Lemma escapeHtml_chars v : escapeHtml v = escape_chars (js_string v).
Proof.
  unfold escapeHtml. induction (js_string v) as [|c s IH]; [reflexivity|].
  change (String c s) with (String c EmptyString +:+ s).
  rewrite !replace_all_app, escape_one, IH. reflexivity.
Qed.

Lemma occurs_app c a b : occurs c (a +:+ b) = occurs c a || occurs c b.
Proof.
  induction a as [|x a IH]; [reflexivity|].
  rewrite sapp_cons. simpl. rewrite IH. apply orb_assoc.
Qed.

Lemma escape_char_clean c :
  occurs "<" (escape_char c) = false /\
  occurs ">" (escape_char c) = false /\
  occurs "034" (escape_char c) = false.
Proof.
  unfold escape_char.
  destruct (Ascii.eqb c "&") eqn:E1; [repeat split|].
  destruct (Ascii.eqb c "034") eqn:E2; [repeat split|].
  destruct (Ascii.eqb c "<") eqn:E3; [repeat split|].
  destruct (Ascii.eqb c ">") eqn:E4; [repeat split|].
  simpl. rewrite E2, E3, E4. repeat split.
Qed.

Lemma escape_chars_clean s :
  occurs "<" (escape_chars s) = false /\
  occurs ">" (escape_chars s) = false /\
  occurs "034" (escape_chars s) = false.
Proof.
  induction s as [|c s (IH1 & IH2 & IH3)]; [repeat split|].
  destruct (escape_char_clean c) as (H1 & H2 & H3).
  simpl. rewrite !occurs_app, H1, H2, H3, IH1, IH2, IH3. repeat split.
Qed.

Lemma decode_escape_char c rest :
  decode_entities (escape_char c +:+ rest) = String c (decode_entities rest).
Proof.
  unfold escape_char.
  eqb_case c "&"%char E1. eqb_case c "034"%char E2.
  eqb_case c "<"%char E3. eqb_case c ">"%char E4.
  rewrite sapp_cons. simpl. rewrite E1. reflexivity.
Qed.

Lemma decode_escape_chars s : decode_entities (escape_chars s) = s.
Proof.
  induction s as [|c s IH]; [reflexivity|].
  simpl. rewrite decode_escape_char, IH. reflexivity.
Qed.

Lemma renderCard_nonnull config cardData :
  cardData <> JNull ->
  renderCard config cardData
  = Normal (card_element config (prop cardData "id") (prop cardData "message")).
Proof.
  intros H. unfold renderCard. rewrite !(get_prop_nonnull _ _ H). reflexivity.
Qed.

(** C9: the markup of a card front is the fixed wrapper around
    [escapeHtml(cardData.message)], and [escapeHtml] replaces each of the
    characters ampersand, double quote, less-than and greater-than by its
    entity and leaves the others: its result holds no less-than, no
    greater-than and no double quote, and an HTML parser reads it back as
    the message itself. *)
Theorem escapeHtml_no_raw_markup :
  (forall config cardData, cardData <> JNull ->
     exists card, renderCard config cardData = Normal card /\
       front_markup card
       = Some ("<div class=" +:+ dq +:+ "card-text" +:+ dq +:+ ">"
               +:+ escapeHtml (prop cardData "message") +:+ "</div>")) /\
  (forall v, escapeHtml v = escape_chars (js_string v)) /\
  (forall v, occurs "<" (escapeHtml v) = false /\
             occurs ">" (escapeHtml v) = false /\
             occurs "034" (escapeHtml v) = false) /\
  (forall v, decode_entities (escapeHtml v) = js_string v).
Proof.
  split; [|split; [|split]].
  - intros config cardData H. eexists. split; [apply (renderCard_nonnull _ _ H)|reflexivity].
  - apply escapeHtml_chars.
  - intros v. rewrite escapeHtml_chars. apply escape_chars_clean.
  - intros v. rewrite escapeHtml_chars. apply decode_escape_chars.
Qed.

Lemma escapeHtml_no_raw_markup_witness :
  exists card,
    renderCard (JObj []) (JObj [("id", JNum 1); ("message", JStr "<b>Tom & Jerry</b>")])
    = Normal card /\
    front_markup card
    = Some ("<div class=" +:+ dq +:+ "card-text" +:+ dq +:+ ">"
            +:+ escapeHtml (prop (JObj [("id", JNum 1); ("message", JStr "<b>Tom & Jerry</b>")])
                              "message") +:+ "</div>").
Proof.
  apply (proj1 escapeHtml_no_raw_markup (JObj [])
           (JObj [("id", JNum 1); ("message", JStr "<b>Tom & Jerry</b>")])).
  discriminate.
Defined.

(** ** games/card-flip.js: startGame *)



Lemma count_class_card_element config id message :
  count_class "card" (card_element config id message) = 1%nat.
Proof. reflexivity. Qed.




(** The scenario of the specification: the card-flip configuration with one
    card, served under the default name, ends with one card element in the
    container and no error view. *)
Example scenario_one_card :
  let config :=
    JObj [("gameType", JStr "card-flip");
          ("cards", JArr [JObj [("id", JNum 1); ("frontImage", JStr "a.png");
                                ("message", JStr "Hi")]])] in
  let w := mkWorld []
             (fun _ => Responded (mkResponse 200 "OK" (Normal config)))
             (fun _ => ImportResolved card_flip_module) (fun _ => true) in
  fst (initialize w blank_page) = Normal tt /\
  List.map (count_class "card") (container (snd (initialize w blank_page))) = [0%nat; 1%nat] /\
  events (snd (initialize w blank_page))
  = [Fetched "config/card-flip.json";
     ConsoleWarn "No theme specified, using default styling" None;
     Imported "./games/card-flip.js"; GameStarted;
     ConsoleLog "Game 'card-flip' initialized successfully"].
Proof. repeat split. Qed.

(** ** JSON text: numbers *)

Lemma span_digits_stop rest :
  head_not_digit rest = true -> span_digits rest = (EmptyString, rest).
Proof.
  destruct rest as [|c r]; [reflexivity|]. simpl. intros H.
  apply negb_true_iff in H. rewrite H. reflexivity.
Qed.

Lemma span_digits_uint d rest :
  head_not_digit rest = true ->
  span_digits (NilEmpty.string_of_uint d +:+ rest) = (NilEmpty.string_of_uint d, rest).
Proof.
  intros H. induction d; simpl NilEmpty.string_of_uint;
    [apply (span_digits_stop _ H)|..];
    rewrite sapp_cons; simpl; rewrite IHd; reflexivity.
Qed.

Lemma unorm_canonical d : canonical_digits (NilEmpty.string_of_uint (Decimal.unorm d)).
Proof.
  induction d; simpl; try assumption;
    eexists; eexists; (split; [reflexivity|split; reflexivity]).
Qed.

Lemma string_of_N_canonical n : canonical_digits (string_of_N n).
Proof.
  unfold string_of_N. rewrite <- (DecimalN.Unsigned.of_to n) at 1.
  rewrite DecimalN.Unsigned.to_of. apply unorm_canonical.
Qed.



Lemma strip_digit c s n :
  is_digit c = true -> (n <? 48)%N || (57 <? n)%N = true -> strip n (String c s) = None.
Proof.
  unfold is_digit, strip. intros Hd Hn.
  destruct (N.eqb_spec (N_of_ascii c) n) as [E|E]; [|reflexivity].
  apply andb_true_iff in Hd as [H1 H2]. apply N.leb_le in H1, H2.
  apply orb_true_iff in Hn as [Hn|Hn]; apply N.ltb_lt in Hn; lia.
Qed.


(** ** JSON text: strings *)



(** ** JSON text: values *)




(** The first character of a number's text. *)
Lemma string_of_Z_head z :
  exists c s, string_of_Z z = String c s /\ (is_digit c = true \/ c = "-"%char).
Proof.
  unfold string_of_Z. destruct (z <? 0).
  - eexists. eexists. split; [reflexivity|right; reflexivity].
  - destruct (string_of_N_canonical (Z.to_N z)) as (c & s' & Hs & Hd & _). eauto.
Qed.










Lemma slength_app a b : String.length (a +:+ b) = (String.length a + String.length b)%nat.
Proof.
  induction a as [|x a IH]; [reflexivity|]. rewrite sapp_cons. simpl. rewrite IH. reflexivity.
Qed.







(** ** StorageUtils *)



(** * Utility library: properties *)

(** ** StringUtils.formatSlug *)

Lemma replace_runs_dashed s b : dashed b (replace_runs b s) = true.
Proof.
  revert b. induction s as [|c s IH]; intros b; [reflexivity|].
  simpl. destruct (is_slug_alnum c) eqn:Hc.
  - simpl. rewrite Hc. apply IH.
  - destruct b; [apply IH|]. simpl. apply IH.
Qed.

Lemma dashed_drop_leading s : dashed false s = true -> dashed true (drop_leading_hyphen s) = true.
Proof.
  destruct s as [|c s]; [reflexivity|]. simpl.
  destruct (is_slug_alnum c) eqn:Hc.
  - intros H. destruct (is_hyphen c) eqn:Hh.
    + unfold is_slug_alnum, in_range, is_hyphen in *. apply N.eqb_eq in Hh. rewrite Hh in Hc.
      discriminate.
    + simpl. rewrite Hc. exact H.
  - destruct (is_hyphen c); simpl; [tauto|discriminate].
Qed.

Lemma drop_trailing_cons c s :
  is_hyphen c = false \/ s <> EmptyString ->
  drop_trailing_hyphen (String c s) = String c (drop_trailing_hyphen s).
Proof.
  intros H. destruct s as [|d s]; [|reflexivity].
  simpl. destruct H as [-> | H]; [reflexivity|contradiction].
Qed.

Lemma alnum_not_hyphen c : is_slug_alnum c = true -> is_hyphen c = false.
Proof.
  unfold is_slug_alnum, in_range, is_hyphen. intros H.
  destruct (N.eqb_spec (N_of_ascii c) 45) as [E|]; [|reflexivity].
  rewrite E in H. discriminate.
Qed.

Lemma dashed_drop_trailing s b :
  dashed b s = true ->
  drop_trailing_hyphen s = EmptyString \/ slug_tail b (drop_trailing_hyphen s) = true.
Proof.
  revert b. induction s as [|c s IH]; intros b H; [left; reflexivity|].
  simpl in H. destruct (is_slug_alnum c) eqn:Hc.
  - right. rewrite drop_trailing_cons by (left; apply alnum_not_hyphen, Hc).
    simpl. rewrite Hc. destruct (IH false H) as [E|E]; [rewrite E; reflexivity|exact E].
  - apply andb_true_iff in H as [H Hs]. apply andb_true_iff in H as [Hh Hb].
    apply negb_true_iff in Hb. subst b.
    destruct s as [|d s]; [left; simpl; rewrite Hh; reflexivity|].
    right. rewrite drop_trailing_cons by (right; discriminate).
    simpl slug_tail. rewrite Hc, Hh. simpl.
    destruct (IH true Hs) as [E|E]; [|exact E].
    exfalso. simpl in Hs. destruct (is_slug_alnum d) eqn:Hd.
    + rewrite drop_trailing_cons in E by (left; apply alnum_not_hyphen, Hd). discriminate.
    + rewrite andb_false_r in Hs. discriminate.
Qed.

Lemma formatSlug_is_slug name : is_slug (formatSlug name) = true.
Proof.
  unfold formatSlug, strip_edge_hyphens, is_slug.
  pose proof (dashed_drop_leading _ (replace_runs_dashed (toLowerCase name) false)) as H.
  destruct (dashed_drop_trailing _ _ H) as [E|E]; [rewrite E; reflexivity|].
  destruct (drop_trailing_hyphen _); [reflexivity|exact E].
Qed.

Lemma slug_tail_chars s b :
  slug_tail b s = true -> all_chars (fun c => is_slug_alnum c || is_hyphen c) s = true.
Proof.
  revert b. induction s as [|c s IH]; intros b H; [reflexivity|].
  simpl in *. destruct (is_slug_alnum c); simpl; [apply (IH _ H)|].
  apply andb_true_iff in H as [H Hs]. apply andb_true_iff in H as [-> _]. apply (IH _ Hs).
Qed.

Lemma slug_tail_last s b c :
  slug_tail b s = true -> last_char s = Some c -> is_slug_alnum c = true.
Proof.
  unfold last_char. revert b. induction s as [|d s IH]; intros b H Hl; [discriminate|].
  simpl in H. destruct s as [|e s].
  - simpl in Hl. injection Hl as ->. destruct (is_slug_alnum c); [reflexivity|].
    simpl in H. rewrite andb_false_r in H. discriminate.
  - assert (Hl' : String.get (String.length (String e s) - 1) (String e s) = Some c).
    { simpl in *. rewrite Nat.sub_0_r in *. exact Hl. }
    destruct (is_slug_alnum d); [apply (IH _ H Hl')|].
    apply andb_true_iff in H as [_ Hs]. apply (IH _ Hs Hl').
Qed.

(** X1: a slug is made of runs of [[a-z0-9]] separated by single hyphens:
    every character of [formatSlug name] is a lower-case letter, a digit or
    a hyphen, and the slug neither starts nor ends with a hyphen. *)
Theorem formatSlug_shape name :
  is_slug (formatSlug name) = true /\
  all_chars (fun c => is_slug_alnum c || is_hyphen c) (formatSlug name) = true /\
  (forall c s, formatSlug name = String c s -> is_slug_alnum c = true) /\
  (forall c, last_char (formatSlug name) = Some c -> is_slug_alnum c = true).
Proof.
  pose proof (formatSlug_is_slug name) as H. unfold is_slug in H.
  split; [apply formatSlug_is_slug|]. destruct (formatSlug name) as [|c s] eqn:E.
  - repeat split; intros; discriminate.
  - split; [apply (slug_tail_chars _ _ H)|]. split.
    + intros c' s' [= <- <-]. simpl in H. destruct (is_slug_alnum c); [reflexivity|].
      rewrite andb_false_r in H. discriminate.
    + intros c' Hl. apply (slug_tail_last _ _ _ H Hl).
Qed.

Lemma toLowerCase_slug_chars s :
  all_chars (fun c => is_slug_alnum c || is_hyphen c) s = true -> toLowerCase s = s.
Proof.
  induction s as [|c s IH]; [reflexivity|]. simpl. intros H.
  apply andb_true_iff in H as [Hc Hs]. rewrite (IH Hs). f_equal.
  unfold toLowerCase_char, is_slug_alnum, is_hyphen, in_range in *.
  destruct (N.leb_spec 65 (N_of_ascii c)), (N.leb_spec (N_of_ascii c) 90),
    (N.leb_spec 97 (N_of_ascii c)), (N.leb_spec (N_of_ascii c) 122),
    (N.leb_spec 48 (N_of_ascii c)), (N.leb_spec (N_of_ascii c) 57),
    (N.leb_spec 192 (N_of_ascii c)), (N.leb_spec (N_of_ascii c) 222),
    (N.eqb_spec (N_of_ascii c) 45); simpl in *; try reflexivity; try discriminate; lia.
Qed.

Lemma replace_runs_slug s b : slug_tail b s = true -> replace_runs false s = s.
Proof.
  revert b. induction s as [|c s IH]; intros b H; [reflexivity|].
  simpl in *. destruct (is_slug_alnum c) eqn:Hc; [rewrite (IH _ H); reflexivity|].
  apply andb_true_iff in H as [H Hs]. apply andb_true_iff in H as [Hh _].
  f_equal; [unfold is_hyphen in Hh; apply N.eqb_eq in Hh;
            rewrite <- (ascii_N_embedding c), Hh; reflexivity|].
  destruct s as [|d s]; [reflexivity|].
  specialize (IH true Hs). simpl in Hs, IH |- *.
  destruct (is_slug_alnum d) eqn:Hd; [exact IH|].
  rewrite andb_false_r in Hs. discriminate.
Qed.

Lemma drop_trailing_slug s b : slug_tail b s = true -> drop_trailing_hyphen s = s.
Proof.
  revert b. induction s as [|c s IH]; intros b H; [reflexivity|].
  simpl in H. destruct (is_slug_alnum c) eqn:Hc.
  - rewrite drop_trailing_cons by (left; apply alnum_not_hyphen, Hc).
    rewrite (IH _ H). reflexivity.
  - apply andb_true_iff in H as [_ Hs].
    destruct s as [|d s]; [discriminate|].
    rewrite drop_trailing_cons by (right; discriminate). rewrite (IH _ Hs). reflexivity.
Qed.

(** X2: [formatSlug] leaves a slug as it is, so formatting twice is the
    same as formatting once. *)
Theorem formatSlug_idempotent :
  (forall s, is_slug s = true -> formatSlug s = s) /\
  (forall name, formatSlug (formatSlug name) = formatSlug name).
Proof.
  assert (Hfix : forall s, is_slug s = true -> formatSlug s = s).
  { intros [|c s] H; [reflexivity|]. unfold is_slug in H.
    unfold formatSlug, strip_edge_hyphens.
    rewrite (toLowerCase_slug_chars _ (slug_tail_chars _ _ H)), (replace_runs_slug _ _ H).
    assert (Hc : is_slug_alnum c = true).
    { simpl in H. destruct (is_slug_alnum c); [reflexivity|].
      rewrite andb_false_r in H. discriminate. }
    unfold drop_leading_hyphen. rewrite (alnum_not_hyphen _ Hc).
    apply (drop_trailing_slug _ _ H). }
  split; [exact Hfix|]. intros name. apply Hfix, formatSlug_is_slug.
Qed.

Lemma formatSlug_idempotent_witness : formatSlug "pick-your-3c-card" = "pick-your-3c-card".
Proof. apply (proj1 formatSlug_idempotent). reflexivity. Defined.

Example formatSlug_examples :
  formatSlug "Pick Your 3C Card" = "pick-your-3c-card" /\
  formatSlug "  --Hello,   World!--  " = "hello-world" /\
  formatSlug "!!!" = "" /\ formatSlug "" = "".
Proof. repeat split. Qed.

(** ** StringUtils.toTitleCase *)







Example toTitleCase_examples :
  toTitleCase "pick yOUR 3c card" = "Pick Your 3c Card" /\
  toTitleCase "hello-world (again)" = "Hello-world (Again)".
Proof. repeat split. Qed.

(** ** StringUtils.truncate *)

Lemma length_substring_0 n s :
  String.length (String.substring 0 n s) = Nat.min n (String.length s).
Proof.
  revert n. induction s as [|c s IH]; intros [|n]; simpl; try reflexivity.
  rewrite IH. reflexivity.
Qed.

(** X3: [truncate] returns the string itself when it fits; otherwise, for
    [maxLength >= 3], a prefix followed by three dots, of length exactly
    [maxLength]; for a smaller [maxLength] the result is longer than
    [maxLength] (a negative end index makes [slice] count from the end). *)
Theorem truncate_length str maxLength :
  (Z.of_nat (String.length str) <= maxLength -> truncate str maxLength = str) /\
  (maxLength < Z.of_nat (String.length str) -> 3 <= maxLength ->
     truncate str maxLength
     = String.substring 0 (Z.to_nat (maxLength - 3)) str +:+ "..." /\
     Z.of_nat (String.length (truncate str maxLength)) = maxLength) /\
  (maxLength < Z.of_nat (String.length str) -> maxLength < 3 ->
     Z.of_nat (String.length (truncate str maxLength))
     = Z.max (Z.of_nat (String.length str) + maxLength - 3) 0 + 3 /\
     maxLength < Z.of_nat (String.length (truncate str maxLength))).
Proof.
  unfold truncate, slice_to. split; [|split].
  - intros H. destruct (Z.leb_spec (Z.of_nat (String.length str)) maxLength); [reflexivity|lia].
  - intros H H3. destruct (Z.leb_spec (Z.of_nat (String.length str)) maxLength); [lia|].
    destruct (Z.ltb_spec (maxLength - 3) 0); [lia|].
    replace (Z.min (maxLength - 3) (Z.of_nat (String.length str))) with (maxLength - 3) by lia.
    split; [reflexivity|]. rewrite slength_app, length_substring_0. simpl. lia.
  - intros H H3. destruct (Z.leb_spec (Z.of_nat (String.length str)) maxLength); [lia|].
    destruct (Z.ltb_spec (maxLength - 3) 0); [|lia].
    rewrite slength_app, length_substring_0. simpl. lia.
Qed.

Lemma truncate_length_witness :
  truncate "Hi" 5 = "Hi" /\
  (truncate "Focus brings clarity." 10 = String.substring 0 (Z.to_nat (10 - 3))
                                            "Focus brings clarity." +:+ "..." /\
   Z.of_nat (String.length (truncate "Focus brings clarity." 10)) = 10) /\
  (Z.of_nat (String.length (truncate "abcdef" 2))
   = Z.max (Z.of_nat (String.length "abcdef") + 2 - 3) 0 + 3 /\
   2 < Z.of_nat (String.length (truncate "abcdef" 2))).
Proof.
  split; [|split].
  - apply (proj1 (truncate_length "Hi" 5)). simpl. lia.
  - apply (proj1 (proj2 (truncate_length "Focus brings clarity." 10))); simpl; lia.
  - apply (proj2 (proj2 (truncate_length "abcdef" 2))); simpl; lia.
Defined.

(** ** StringUtils.generateId *)

Lemma get_occurs j s c : String.get j s = Some c -> occurs c s = true.
Proof.
  revert j. induction s as [|d s IH]; intros j H; [discriminate|].
  destruct j as [|j]; simpl in *.
  - injection H as ->. rewrite Ascii.eqb_refl. reflexivity.
  - rewrite (IH _ H). apply orb_true_r.
Qed.

Lemma get_in_range j s : (j < String.length s)%nat -> exists c, String.get j s = Some c.
Proof.
  revert j. induction s as [|d s IH]; intros j H; simpl in H; [lia|].
  destruct j as [|j]; simpl; [eauto|]. apply IH. lia.
Qed.

Lemma all_chars_app P a b : all_chars P (a +:+ b) = all_chars P a && all_chars P b.
Proof.
  induction a as [|x a IH]; [reflexivity|].
  rewrite sapp_cons. simpl. rewrite IH. apply andb_assoc.
Qed.

Lemma generateId_loop_spec rand k todo result :
  (forall k', (rand k' (String.length id_chars) < String.length id_chars)%nat) ->
  String.length (generateId_loop rand k todo result) = (String.length result + todo)%nat /\
  (all_chars (fun c => occurs c id_chars) result = true ->
   all_chars (fun c => occurs c id_chars) (generateId_loop rand k todo result) = true).
Proof.
  intros Hr. revert k result.
  induction todo as [|todo IH]; intros k result; cbn [generateId_loop].
  - split; [lia|tauto].
  - destruct (get_in_range _ _ (Hr k)) as [c Hc].
    destruct (IH (S k) (result +:+ charAt id_chars (rand k (String.length id_chars))))
      as [Hl Ha].
    split.
    + rewrite Hl, slength_app. unfold charAt. rewrite Hc. simpl. lia.
    + intros H. apply Ha. rewrite all_chars_app, H. unfold charAt. rewrite Hc.
      cbn [all_chars]. rewrite (get_occurs _ _ _ Hc). reflexivity.
Qed.

(** X4: whatever the random draws, [generateId(length)] is a string of
    exactly [length] characters, each taken from the 62 letters and
    digits. *)
Theorem generateId_spec rand k length :
  (forall k', (rand k' 62 < 62)%nat) ->
  String.length (generateId rand k length) = length /\
  all_chars (fun c => occurs c id_chars) (generateId rand k length) = true.
Proof.
  intros Hr. destruct (generateId_loop_spec rand k length EmptyString Hr) as [Hl Ha].
  split; [exact Hl|apply Ha; reflexivity].
Qed.

Lemma generateId_spec_witness :
  String.length (generateId (fun k _ => (7 * k) mod 62)%nat 0 8) = 8%nat /\
  all_chars (fun c => occurs c id_chars)
    (generateId (fun k _ => (7 * k) mod 62)%nat 0 8) = true.
Proof.
  apply (generateId_spec (fun k _ => (7 * k) mod 62)%nat 0 8).
  intros k'. apply Nat.mod_upper_bound. discriminate.
Defined.

(** ** ArrayUtils.shuffle, randomItem, randomItems, createPairs *)

Lemma swap_Permutation {A} (l : list A) i j :
  (i < length l)%nat -> (j < length l)%nat -> swap l i j ≡ₚ l.
Proof.
  intros Hi Hj. unfold swap.
  destruct (lookup_lt_is_Some_2 l i Hi) as [x Hx].
  destruct (lookup_lt_is_Some_2 l j Hj) as [y Hy].
  rewrite Hx, Hy. apply Permutation_insert_swap; assumption.
Qed.

Lemma shuffle_loop_Permutation {A} rand k i (l : list A) :
  (forall k' n, (0 < n)%nat -> (rand k' n < n)%nat) ->
  (i < length l)%nat -> shuffle_loop rand k i l ≡ₚ l.
Proof.
  intros Hr. revert k l. induction i as [|i IH]; intros k l Hi; [reflexivity|].
  cbn [shuffle_loop].
  assert (Hj : (rand k (S i + 1) < S i + 1)%nat) by (apply Hr; lia).
  assert (Hs : swap l (S i) (rand k (S i + 1)%nat) ≡ₚ l) by (apply swap_Permutation; lia).
  rewrite IH; [exact Hs|]. rewrite (Permutation_length Hs). lia.
Qed.

Lemma shuffle_rearranges {A} rand k (array : list A) :
  (forall k' n, (0 < n)%nat -> (rand k' n < n)%nat) ->
  shuffle rand k array ≡ₚ array /\ length (shuffle rand k array) = length array.
Proof.
  intros Hr. assert (H : shuffle rand k array ≡ₚ array).
  { unfold shuffle. destruct array as [|x array]; [reflexivity|].
    apply shuffle_loop_Permutation; [exact Hr|]. simpl. lia. }
  split; [exact H|apply (Permutation_length H)].
Qed.

(** X5: whatever the random draws, [shuffle] returns a rearrangement of its
    argument: the same items, each as often as before, so also as many. *)
Theorem shuffle_Permutation {A} rand k (array : list A) :
  (forall k' n, (0 < n)%nat -> (rand k' n < n)%nat) ->
  shuffle rand k array ≡ₚ array /\ length (shuffle rand k array) = length array.
Proof. apply shuffle_rearranges. Qed.

Lemma shuffle_Permutation_witness :
  shuffle (fun _ _ => 0%nat) 0 [1; 2; 3; 4] ≡ₚ [1; 2; 3; 4] /\
  length (shuffle (fun _ _ => 0%nat) 0 [1; 2; 3; 4]) = length [1; 2; 3; 4].
Proof. apply (shuffle_Permutation (fun _ _ => 0%nat) 0 [1; 2; 3; 4]). intros k' n H. exact H. Defined.

(** X6: [createPairs] returns a rearrangement of the items followed by the
    items: twice as many cards, every item occurring twice as often as in
    the argument. *)
Theorem createPairs_Permutation {A} rand k (items : list A) :
  (forall k' n, (0 < n)%nat -> (rand k' n < n)%nat) ->
  createPairs rand k items ≡ₚ items ++ items /\
  length (createPairs rand k items) = (2 * length items)%nat /\
  (forall x, x ∈ createPairs rand k items <-> x ∈ items).
Proof.
  intros Hr. destruct (shuffle_rearranges rand k (items ++ items) Hr) as [Hp Hl].
  unfold createPairs. split; [exact Hp|]. split.
  - rewrite Hl, length_app. lia.
  - intros x. rewrite Hp, elem_of_app. tauto.
Qed.

Lemma createPairs_Permutation_witness :
  createPairs (fun _ _ => 0%nat) 0 ["a"; "b"] ≡ₚ ["a"; "b"] ++ ["a"; "b"] /\
  length (createPairs (fun _ _ => 0%nat) 0 ["a"; "b"]) = (2 * length ["a"; "b"])%nat /\
  (forall x, x ∈ createPairs (fun _ _ => 0%nat) 0 ["a"; "b"] <-> x ∈ ["a"; "b"]).
Proof. apply (createPairs_Permutation (fun _ _ => 0%nat) 0 ["a"; "b"]). intros k' n H. exact H. Defined.

Lemma slice_0 {A} (l : list A) (n : Z) :
  slice l 0 n = take (Z.to_nat (clamp_index (Z.of_nat (length l)) n)) l.
Proof.
  unfold slice. change (clamp_index (Z.of_nat (length l)) 0) with (Z.min 0 (Z.of_nat (length l))).
  rewrite Z.min_l by lia. rewrite Z.sub_0_r. reflexivity.
Qed.

(** X7: [randomItems(array, count)] picks [min(count, length)] items of the
    array for a [count >= 0], all of them items of the array and, when the
    array has no repetition, all different; a negative [count] does not
    give an empty result but all items except [-count] of them. *)
Theorem randomItems_spec {A} rand k (array : list A) (count : Z) :
  (forall k' n, (0 < n)%nat -> (rand k' n < n)%nat) ->
  (forall x, x ∈ randomItems rand k array count -> x ∈ array) /\
  (NoDup array -> NoDup (randomItems rand k array count)) /\
  (0 <= count ->
     Z.of_nat (length (randomItems rand k array count))
     = Z.min count (Z.of_nat (length array))) /\
  (count < 0 ->
     Z.of_nat (length (randomItems rand k array count))
     = Z.max (Z.of_nat (length array) + count) 0).
Proof.
  intros Hr. destruct (shuffle_rearranges rand k array Hr) as [Hp Hl].
  unfold randomItems. rewrite slice_0, Hl.
  split; [|split; [|split]].
  - intros x Hx. rewrite <- Hp. apply (sublist_subseteq _ _ (sublist_take _ _) x Hx).
  - intros Hn. rewrite <- Hp in Hn. apply (sublist_NoDup _ _ Hn (sublist_take _ _)).
  - intros Hc. rewrite length_take, Hl. unfold clamp_index.
    destruct (Z.ltb_spec (Z.min count (Z.of_nat (length array))) 0); lia.
  - intros Hc. rewrite length_take, Hl. unfold clamp_index.
    destruct (Z.ltb_spec (Z.min count (Z.of_nat (length array))) 0); lia.
Qed.

Lemma randomItems_spec_witness :
  Z.of_nat (length (randomItems (fun _ _ => 0%nat) 0 [1; 2; 3; 4] 2))
  = Z.min 2 (Z.of_nat (length [1; 2; 3; 4])) /\
  Z.of_nat (length (randomItems (fun _ _ => 0%nat) 0 [1; 2; 3; 4] (-1)))
  = Z.max (Z.of_nat (length [1; 2; 3; 4]) + -1) 0.
Proof.
  split.
  - apply (proj1 (proj2 (proj2 (randomItems_spec (fun _ _ => 0%nat) 0 [1; 2; 3; 4] 2
                                  (fun k' n H => H))))). lia.
  - apply (proj2 (proj2 (proj2 (randomItems_spec (fun _ _ => 0%nat) 0 [1; 2; 3; 4] (-1)
                                  (fun k' n H => H))))). lia.
Defined.

(** X8: [randomItem] returns an item of a non-empty array, and [undefined]
    for an empty one. *)
Theorem randomItem_spec {A} rand k (array : list A) :
  (rand k (length array) <= pred (length array))%nat ->
  (array <> [] -> exists x, randomItem rand k array = Some x /\ x ∈ array) /\
  (array = [] -> randomItem rand k array = None).
Proof.
  intros Hr. unfold randomItem. split.
  - intros Hne. destruct array as [|a array]; [contradiction|].
    destruct (lookup_lt_is_Some_2 (a :: array) (rand k (length (a :: array)))) as [x Hx].
    { simpl in *. lia. }
    exists x. split; [exact Hx|]. apply list_elem_of_lookup. eauto.
  - intros ->. reflexivity.
Qed.

Lemma randomItem_spec_witness :
  exists x, randomItem (fun _ n => pred n) 0 ["a"; "b"; "c"] = Some x /\ x ∈ ["a"; "b"; "c"].
Proof.
  apply (proj1 (randomItem_spec (fun _ n => pred n) 0 ["a"; "b"; "c"] (le_n _))). discriminate.
Defined.

(** ** ArrayUtils.chunk *)

Lemma slice_chunk {A} (l : list A) (n : nat) (size : Z) :
  0 < size -> (n < length l)%nat ->
  slice l (Z.of_nat n) (Z.of_nat n + size) = take (Z.to_nat size) (drop n l).
Proof.
  intros Hs Hn. unfold slice, clamp_index.
  destruct (Z.ltb_spec (Z.of_nat n) 0); [lia|].
  destruct (Z.ltb_spec (Z.of_nat n + size) 0); [lia|].
  rewrite (Z.min_l (Z.of_nat n)) by lia. rewrite Nat2Z.id.
  destruct (Z.le_ge_cases (Z.of_nat n + size) (Z.of_nat (length l))).
  - rewrite Z.min_l by lia. f_equal. lia.
  - rewrite Z.min_r by lia. rewrite !take_ge; [reflexivity| |]; rewrite length_drop; lia.
Qed.

Lemma chunk_loop_spec {A} fuel (array : list A) size (n : nat) chunks :
  0 < size -> (length array - n <= fuel)%nat ->
  exists rest,
    chunk_loop fuel array size (Z.of_nat n) chunks = Some (chunks ++ rest) /\
    concat rest = drop n array /\
    Forall (fun c => 0 < Z.of_nat (length c) <= size) rest /\
    full_but_last size rest.
Proof.
  intros Hs. revert n chunks. induction fuel as [|fuel IH]; intros n chunks Hf.
  - exists []. simpl. destruct (Z.ltb_spec (Z.of_nat n) (Z.of_nat (length array))); [lia|].
    rewrite app_nil_r, drop_ge by lia. repeat split; [constructor|].
    intros k c Hk0. discriminate.
  - cbn [chunk_loop]. destruct (Z.ltb_spec (Z.of_nat n) (Z.of_nat (length array))) as [Hn|Hn].
    + destruct (IH (n + Z.to_nat size)%nat (chunks ++ [slice array (Z.of_nat n) (Z.of_nat n + size)]))
        as (rest & Hrun & Hcat & Hall & Hfull); [lia|].
      replace (Z.of_nat (n + Z.to_nat size)) with (Z.of_nat n + size) in Hrun by lia.
      exists (slice array (Z.of_nat n) (Z.of_nat n + size) :: rest).
      split; [rewrite Hrun, <- app_assoc; reflexivity|].
      rewrite slice_chunk by lia. split; [|split].
      * simpl. rewrite Hcat, <- drop_drop. apply take_drop.
      * constructor; [|exact Hall]. rewrite length_take, length_drop. lia.
      * intros [|k] c Hk Hlen; simpl in Hk, Hlen.
        -- injection Hk as <-. rewrite length_take, length_drop.
           destruct rest as [|c' rest]; [simpl in Hlen; lia|].
           assert (Hc' : (0 < length (concat (c' :: rest)))%nat).
           { inversion Hall; subst. simpl. rewrite length_app. lia. }
           rewrite Hcat, length_drop in Hc'. lia.
        -- apply (Hfull k c Hk). lia.
    + exists []. rewrite app_nil_r, drop_ge by lia. repeat split; [constructor|].
      intros k c Hk0. discriminate.
Qed.

(** X9: for a positive [size], [chunk] ends within [length] iterations;
    its chunks, put end to end, give the array back; no chunk is empty or
    longer than [size], and all but the last have exactly [size] items. *)
Theorem chunk_spec {A} fuel (array : list A) size :
  0 < size -> (length array <= fuel)%nat ->
  exists chunks,
    chunk fuel array size = Some chunks /\
    concat chunks = array /\
    Forall (fun c => 0 < Z.of_nat (length c) <= size) chunks /\
    full_but_last size chunks.
Proof.
  intros Hs Hf. destruct (chunk_loop_spec fuel array size 0 [] Hs) as (rest & H1 & H2 & H3 & H4);
    [lia|].
  exists rest. split; [exact H1|]. split; [exact H2|]. split; assumption.
Qed.

Lemma chunk_spec_witness :
  exists chunks,
    chunk 5 [1; 2; 3; 4; 5] 2 = Some chunks /\
    concat chunks = [1; 2; 3; 4; 5] /\
    Forall (fun c => 0 < Z.of_nat (length c) <= 2) chunks /\
    full_but_last 2 chunks.
Proof. apply (chunk_spec 5 [1; 2; 3; 4; 5] 2); [lia|simpl; lia]. Defined.

Lemma chunk_loop_diverges {A} fuel (array : list A) size i chunks :
  size <= 0 -> i <= 0 -> array <> [] -> chunk_loop fuel array size i chunks = None.
Proof.
  intros Hs Hi Hne. revert i chunks Hi.
  induction fuel as [|fuel IH]; intros i chunks Hi; cbn [chunk_loop];
    destruct (Z.ltb_spec i (Z.of_nat (length array))) as [Hn|Hn];
    try reflexivity; try (apply IH; lia);
    destruct array; [contradiction|simpl in Hn; lia|contradiction|simpl in Hn; lia].
Qed.

(** X10: for a [size] that is zero or negative and a non-empty array the
    loop of [chunk] never ends: no number of iterations is enough. *)
Theorem chunk_nonpositive_size_diverges {A} fuel (array : list A) size :
  size <= 0 -> array <> [] -> chunk fuel array size = None.
Proof. intros Hs Hne. apply chunk_loop_diverges; [exact Hs|lia|exact Hne]. Qed.

Lemma chunk_nonpositive_size_diverges_witness : chunk 1000 [1; 2; 3] 0 = None.
Proof. apply (chunk_nonpositive_size_diverges 1000 [1; 2; 3] 0); [lia|discriminate]. Defined.

(** ** GameStateUtils.createStateManager *)

Lemma apply_op_initial m op : sm_initial (apply_op m op) = sm_initial m.
Proof.
  destruct op; try reflexivity. simpl. unfold unsubscribe.
  destruct (indexOf listener (sm_listeners m)); reflexivity.
Qed.

Lemma run_ops_initial ops m : sm_initial (run_ops ops m) = sm_initial m.
Proof.
  revert m. induction ops as [|op ops IH]; intros m; [reflexivity|].
  simpl. unfold run_ops in IH. rewrite IH. apply apply_op_initial.
Qed.

(** X11: whatever calls were made on a state manager, [reset] brings the
    state back to the initial state it was created with, and tells every
    registered listener so, with an empty previous state. *)
Theorem reset_restores_initial initialState ops :
  getState (reset (run_ops ops (createStateManager initialState))) = initialState /\
  sm_calls (reset (run_ops ops (createStateManager initialState)))
  = sm_calls (run_ops ops (createStateManager initialState))
    ++ List.map (fun l => mkNotification l initialState ∅)
         (sm_listeners (run_ops ops (createStateManager initialState))).
Proof.
  unfold getState, reset. simpl. rewrite run_ops_initial. split; reflexivity.
Qed.

(** X12: [setState] merges: after it a key holds the new value when
    [newState] has the key and its old value otherwise; two calls in a row
    leave the state of one call with the merged argument; a call with an
    empty object leaves the state as it is and still notifies every
    listener. *)
Theorem setState_merges (newState : gmap string JValue) (m : StateManager) :
  (forall key, getState (setState newState m) !! key
               = match newState !! key with
                 | Some v => Some v
                 | None => getState m !! key
                 end) /\
  (forall later, getState (setState later (setState newState m))
                 = getState (setState (later ∪ newState) m)) /\
  getState (setState newState (setState newState m)) = getState (setState newState m) /\
  getState (setState ∅ m) = getState m /\
  length (sm_calls (setState ∅ m)) = (length (sm_calls m) + length (sm_listeners m))%nat.
Proof.
  unfold getState, setState. simpl. split; [|split; [|split; [|split]]].
  - intros key. rewrite lookup_union. destruct (newState !! key), (sm_state m !! key); reflexivity.
  - intros later. apply (assoc_L (∪)).
  - rewrite (assoc_L (∪)), (idemp_L (∪)). reflexivity.
  - apply (left_id_L ∅ (∪)).
  - unfold notify. rewrite length_app, length_map. reflexivity.
Qed.

Lemma indexOf_Some listener listeners i :
  indexOf listener listeners = Some i ->
  listeners !! i = Some listener /\ listener ∉ take i listeners.
Proof.
  revert i. induction listeners as [|l rest IH]; intros i H; [discriminate|].
  simpl in H. destruct (Nat.eqb_spec l listener) as [->|Hne].
  - injection H as <-. split; [reflexivity|]. simpl. apply not_elem_of_nil.
  - destruct (indexOf listener rest) as [j|] eqn:Hj; [|discriminate].
    injection H as <-. destruct (IH j eq_refl) as [H1 H2]. split; [exact H1|].
    simpl. intros Hin. apply elem_of_cons in Hin as [Hin|Hin]; [congruence|contradiction].
Qed.

Lemma indexOf_None listener listeners :
  indexOf listener listeners = None <-> listener ∉ listeners.
Proof.
  induction listeners as [|l rest IH]; simpl.
  - split; [intros _; apply not_elem_of_nil|reflexivity].
  - destruct (Nat.eqb_spec l listener) as [->|Hne].
    + split; [discriminate|]. intros H. exfalso. apply H. left.
    + destruct (indexOf listener rest) as [j|]; simpl.
      * split; [discriminate|]. intros H.
        assert (Hr : listener ∉ rest) by (intros Hin; apply H; right; exact Hin).
        apply IH in Hr. discriminate.
      * split; [|reflexivity]. intros _ H. apply elem_of_cons in H as [H|H]; [congruence|].
        apply (proj1 IH eq_refl H).
Qed.

Lemma delete_app_last (l : list nat) x : delete (length l) (l ++ [x]) = l.
Proof. induction l as [|y l IH]; [reflexivity|]. simpl. rewrite IH. reflexivity. Qed.

Lemma indexOf_app_fresh listener listeners :
  listener ∉ listeners -> indexOf listener (listeners ++ [listener]) = Some (length listeners).
Proof.
  induction listeners as [|l rest IH]; intros H; simpl.
  - rewrite Nat.eqb_refl. reflexivity.
  - destruct (Nat.eqb_spec l listener) as [->|Hne]; [exfalso; apply H; left|].
    rewrite IH; [reflexivity|]. intros Hin. apply H. right. exact Hin.
Qed.

Lemma indexOf_is_Some listener listeners :
  listener ∈ listeners -> exists i, indexOf listener listeners = Some i.
Proof.
  intros H. destruct (indexOf listener listeners) as [i|] eqn:E; [eauto|].
  apply indexOf_None in E. contradiction.
Qed.

(** X13: unsubscribing removes the earliest registration of the listener.
    Right after [subscribe] it restores the manager when the listener was
    not registered before, and in any case leaves a rearrangement of the
    listeners there were; a listener that was registered once is not called
    by a later [setState] once it has unsubscribed, and unsubscribing a
    listener that is not registered changes nothing. *)
Theorem unsubscribe_spec (listener : nat) (m : StateManager) :
  (listener ∉ sm_listeners m -> unsubscribe listener (subscribe listener m) = m) /\
  sm_listeners (unsubscribe listener (subscribe listener m)) ≡ₚ sm_listeners m /\
  (listener ∉ sm_listeners m ->
   forall newState n,
     n ∈ sm_calls (setState newState (unsubscribe listener (subscribe listener m))) ->
     n ∈ sm_calls m \/ n_listener n <> listener) /\
  (listener ∉ sm_listeners m -> unsubscribe listener m = m).
Proof.
  assert (Hfresh : listener ∉ sm_listeners m -> unsubscribe listener (subscribe listener m) = m).
  { intros H. unfold unsubscribe, subscribe. simpl.
    rewrite (indexOf_app_fresh _ _ H), delete_app_last. destruct m; reflexivity. }
  split; [exact Hfresh|]. split; [|split].
  - unfold unsubscribe, subscribe. simpl.
    destruct (indexOf_is_Some listener (sm_listeners m ++ [listener])) as [i Hi].
    { apply elem_of_app. right. apply list_elem_of_singleton. reflexivity. }
    rewrite Hi. simpl. destruct (indexOf_Some _ _ _ Hi) as [Hl _].
    apply (Permutation.Permutation_cons_inv (a := listener)).
    rewrite <- (delete_Permutation _ _ _ Hl).
    rewrite Permutation_app_comm. reflexivity.
  - intros H newState n. rewrite (Hfresh H). unfold setState. simpl.
    rewrite elem_of_app. intros [Hn|Hn]; [left; exact Hn|right].
    unfold notify in Hn. apply list_elem_of_In, in_map_iff in Hn.
    destruct Hn as (l & <- & Hl). simpl. intros ->. apply H, list_elem_of_In, Hl.
  - intros H. unfold unsubscribe. rewrite (proj2 (indexOf_None _ _) H). reflexivity.
Qed.

Lemma unsubscribe_spec_witness :
  unsubscribe 7 (subscribe 7 (subscribe 3 (createStateManager ∅)))
  = subscribe 3 (createStateManager ∅).
Proof.
  apply (proj1 (unsubscribe_spec 7 (subscribe 3 (createStateManager ∅)))).
  simpl. intros H. apply list_elem_of_singleton in H. discriminate.
Defined.

(** A listener registered twice: unsubscribing once after the second
    registration removes the first one, so the order of the calls changes. *)
Example unsubscribe_reorders :
  sm_listeners (unsubscribe 1 (subscribe 1 (subscribe 2 (subscribe 1 (createStateManager ∅)))))
  = [2%nat; 1%nat].
Proof. reflexivity. Qed.

(** ** ValidationUtils.validateConfig *)

Lemma check_required_object props requiredFields acc :
  assoc "hasOwnProperty" props = None ->
  check_required (JObj props) requiredFields acc
  = Normal (acc ++ List.map (fun f => "Missing required field: " +:+ f)
                     (List.filter (fun f => negb (field_present props f)) requiredFields)).
Proof.
  intros Hh. revert acc. induction requiredFields as [|f rest IH]; intros acc; simpl.
  - rewrite app_nil_r. reflexivity.
  - unfold field_missing, hasOwnProperty. simpl. rewrite Hh. simpl.
    unfold mbind, Completion_bind, mret, Completion_ret. rewrite IH.
    unfold field_present. destruct (assoc f props) as [[| | | | |]|]; simpl;
      rewrite <- ?app_assoc; reflexivity.
Qed.

Lemma validate_object_result props requiredFields :
  assoc "hasOwnProperty" props = None ->
  exists r,
    ValidationUtils_validateConfig (JObj props) requiredFields = Normal r /\
    errors r
    = List.map (fun f => "Missing required field: " +:+ f)
        (List.filter (fun f => negb (field_present props f)) requiredFields)
      ++ (if truthy (assoc "cards" props) && negb (is_array (assoc "cards" props))
          then ["Cards must be an array"] else []) /\
    (valid r = true <->
     Forall (fun f => field_present props f = true) requiredFields /\
     (truthy (assoc "cards" props) = false \/ is_array (assoc "cards" props) = true)).
Proof.
  intros Hh. unfold ValidationUtils_validateConfig.
  rewrite (check_required_object props requiredFields [] Hh). simpl.
  unfold mbind, Completion_bind, mret, Completion_ret. simpl.
  eexists. split; [reflexivity|]. simpl. split.
  - destruct (truthy (assoc "cards" props) && negb (is_array (assoc "cards" props)));
      [reflexivity|rewrite app_nil_r; reflexivity].
  - set (missing := List.filter (fun f => negb (field_present props f)) requiredFields).
    assert (Hm : missing = [] <-> Forall (fun f => field_present props f = true) requiredFields).
    { unfold missing. clear. induction requiredFields as [|f rest IH]; simpl.
      - split; [constructor|reflexivity].
      - destruct (field_present props f) eqn:Hf; simpl.
        + rewrite IH. split; [intros H; constructor; assumption|].
          intros H. inversion H; assumption.
        + split; [discriminate|]. intros H. inversion H; congruence. }
    destruct (truthy (assoc "cards" props)) eqn:Ht;
      destruct (is_array (assoc "cards" props)) eqn:Ha; simpl.
    + rewrite <- Hm. destruct missing; simpl; split; try tauto; try discriminate.
      intros [H _]. discriminate.
    + split.
      * intros H. destruct missing; discriminate.
      * intros [_ [H|H]]; discriminate.
    + rewrite <- Hm. destruct missing; simpl; split; try tauto; try discriminate.
      intros [H _]. discriminate.
    + rewrite <- Hm. destruct missing; simpl; split; try tauto; try discriminate.
      intros [H _]. discriminate.
Qed.

(** X14: for a configuration object (without a property named
    [hasOwnProperty]) the validator returns normally; its errors are one
    "Missing required field" line per required field that is absent or
    [null], in the order of the fields, then "Cards must be an array" when
    [cards] is truthy and not an array; the result is valid exactly when
    every required field is present and [cards] is falsy or an array.
    Warnings have no influence on validity. *)
Theorem ValidationUtils_validateConfig_object props requiredFields :
  assoc "hasOwnProperty" props = None ->
  exists r,
    ValidationUtils_validateConfig (JObj props) requiredFields = Normal r /\
    errors r
    = List.map (fun f => "Missing required field: " +:+ f)
        (List.filter (fun f => negb (field_present props f)) requiredFields)
      ++ (if truthy (assoc "cards" props) && negb (is_array (assoc "cards" props))
          then ["Cards must be an array"] else []) /\
    (valid r = true <->
     Forall (fun f => field_present props f = true) requiredFields /\
     (truthy (assoc "cards" props) = false \/ is_array (assoc "cards" props) = true)).
Proof. apply validate_object_result. Qed.

Lemma ValidationUtils_validateConfig_object_witness :
  exists r,
    ValidationUtils_validateConfig
      (JObj [("gameType", JStr "card-flip"); ("cards", JStr "none")]) ["gameType"; "title"]
    = Normal r /\
    errors r
    = List.map (fun f => "Missing required field: " +:+ f)
        (List.filter
           (fun f => negb (field_present [("gameType", JStr "card-flip"); ("cards", JStr "none")] f))
           ["gameType"; "title"])
      ++ (if truthy (assoc "cards" [("gameType", JStr "card-flip"); ("cards", JStr "none")])
             && negb (is_array (assoc "cards" [("gameType", JStr "card-flip");
                                               ("cards", JStr "none")]))
          then ["Cards must be an array"] else []) /\
    (valid r = true <->
     Forall (fun f => field_present [("gameType", JStr "card-flip"); ("cards", JStr "none")] f
                      = true) ["gameType"; "title"] /\
     (truthy (assoc "cards" [("gameType", JStr "card-flip"); ("cards", JStr "none")]) = false \/
      is_array (assoc "cards" [("gameType", JStr "card-flip"); ("cards", JStr "none")]) = true)).
Proof.
  apply (ValidationUtils_validateConfig_object
           [("gameType", JStr "card-flip"); ("cards", JStr "none")] ["gameType"; "title"]).
  reflexivity.
Defined.

(** X15: the validator throws a TypeError instead of reporting: always for
    a [null] configuration, and, as soon as one field is required, for an
    object that has a property named [hasOwnProperty] of its own. *)
Theorem ValidationUtils_validateConfig_throws requiredFields :
  (exists e, ValidationUtils_validateConfig JNull requiredFields = Throw e /\
             eclass e = TypeErrorC) /\
  (forall props field rest x,
     requiredFields = field :: rest -> assoc "hasOwnProperty" props = Some x ->
     ValidationUtils_validateConfig (JObj props) requiredFields
     = Throw (not_a_function "config.hasOwnProperty")).
Proof.
  split.
  - unfold ValidationUtils_validateConfig. destruct requiredFields as [|f rest]; simpl;
      eexists; split; reflexivity.
  - intros props field rest x -> Hx. unfold ValidationUtils_validateConfig. simpl.
    unfold field_missing, hasOwnProperty. simpl. rewrite Hx. reflexivity.
Qed.

Lemma ValidationUtils_validateConfig_throws_witness :
  ValidationUtils_validateConfig
    (JObj [("gameType", JStr "quiz"); ("hasOwnProperty", JBool true)]) ["gameType"]
  = Throw (not_a_function "config.hasOwnProperty").
Proof.
  apply (proj2 (ValidationUtils_validateConfig_throws ["gameType"])
           [("gameType", JStr "quiz"); ("hasOwnProperty", JBool true)] "gameType" []
           (JBool true)); reflexivity.
Defined.

(** X16: the two validators of the repository agree in one direction only.
    A configuration that [ConfigManager.validateConfig] accepts has no
    missing [gameType] for [ValidationUtils.validateConfig]: the only error
    that can remain is the one about [cards].  The converse fails: an empty
    [gameType] is present for the second and rejected by the first. *)
Theorem validators_compared :
  (forall config,
     validateConfig config = Normal true -> own_property config "hasOwnProperty" = None ->
     exists r,
       ValidationUtils_validateConfig config ["gameType"] = Normal r /\
       errors r = (if truthy (prop config "cards") && negb (is_array (prop config "cards"))
                   then ["Cards must be an array"] else [])) /\
  (exists r,
     ValidationUtils_validateConfig (JObj [("gameType", JStr "")]) ["gameType"] = Normal r /\
     valid r = true /\
     exists e, validateConfig (JObj [("gameType", JStr "")]) = Throw e).
Proof.
  split.
  - intros config Hv Hh. destruct (validateConfig_Normal _ _ Hv) as (_ & Hnn & Hg).
    destruct config as [| | | |items|props]; try discriminate; try contradiction.
    simpl in Hg, Hh.
    destruct (validate_object_result props ["gameType"] Hh) as (r & Hr & He & _).
    exists r. split; [exact Hr|]. rewrite He. simpl.
    unfold field_present. destruct (assoc "gameType" props) as [[| | | | |]|]; try discriminate;
      reflexivity.
  - eexists. split; [reflexivity|]. split; [reflexivity|]. eexists. reflexivity.
Qed.

Lemma validators_compared_witness :
  exists r,
    ValidationUtils_validateConfig (JObj [("gameType", JStr "card-flip"); ("cards", JArr [])])
      ["gameType"] = Normal r /\
    errors r = (if truthy (prop (JObj [("gameType", JStr "card-flip"); ("cards", JArr [])]) "cards")
                   && negb (is_array (prop (JObj [("gameType", JStr "card-flip");
                                                  ("cards", JArr [])]) "cards"))
                then ["Cards must be an array"] else []).
Proof.
  apply (proj1 validators_compared (JObj [("gameType", JStr "card-flip"); ("cards", JArr [])]));
    reflexivity.
Defined.

(** ** admin/editor.js *)

Example buildConfig_example :
  buildConfig (mkEditorInputs "  My Game " "" (" Hi " +:+ nl +:+ nl +:+ "  " +:+ nl +:+ "Focus!"))
    (mkEditorState ∅ "" "")
  = ((mkEditorMeta "My Game" "my-game" "game-001" "theme1",
      JObj [("gameType", JStr "card-flip"); ("theme", JStr "theme1"); ("title", JStr "My Game");
            ("cards", JArr [JObj [("id", JNum 1); ("frontImage", JStr "card1.png");
                                  ("message", JStr "Hi")];
                            JObj [("id", JNum 2); ("frontImage", JStr "card2.png");
                                  ("message", JStr "Focus!")]]);
            ("settings", editor_settings)]),
     mkEditorState {[ "3c_next_game_number" := "1" ]} "my-game" "game-001").
Proof. reflexivity. Qed.

Lemma trimStart_head s : head_not_space (trimStart s) = true.
Proof.
  induction s as [|c s IH]; [reflexivity|]. simpl.
  destruct (is_js_space c) eqn:Hc; [exact IH|]. simpl. rewrite Hc. reflexivity.
Qed.

Lemma trimEnd_head s : head_not_space s = true -> head_not_space (trimEnd s) = true.
Proof.
  destruct s as [|c s]; [reflexivity|]. simpl. intros H.
  destruct (is_empty (trimEnd s) && is_js_space c); [reflexivity|exact H].
Qed.

Lemma trimStart_id s : head_not_space s = true -> trimStart s = s.
Proof.
  destruct s as [|c s]; [reflexivity|]. simpl. intros H.
  apply negb_true_iff in H. rewrite H. reflexivity.
Qed.

Lemma trimEnd_idempotent s : trimEnd (trimEnd s) = trimEnd s.
Proof.
  induction s as [|c s IH]; [reflexivity|]. simpl.
  destruct (is_empty (trimEnd s) && is_js_space c) eqn:E; [reflexivity|].
  simpl. rewrite IH, E. reflexivity.
Qed.

Lemma trim_idempotent s : trim (trim s) = trim s.
Proof.
  unfold trim. rewrite (trimStart_id (trimEnd (trimStart s))).
  - apply trimEnd_idempotent.
  - apply trimEnd_head, trimStart_head.
Qed.

Lemma editor_messages_trimmed text :
  Forall (fun m => m <> EmptyString /\ trim m = m) (editor_messages text).
Proof.
  unfold editor_messages. apply Forall_forall. intros m Hm.
  apply list_elem_of_In, filter_In in Hm. destruct Hm as [Hin Hne].
  apply in_map_iff in Hin. destruct Hin as (line & <- & _). split.
  - intros E. rewrite E in Hne. discriminate.
  - apply trim_idempotent.
Qed.

Lemma imap_cards_valid (f : nat -> string -> JValue) messages :
  (forall i m, is_CardSpec (f i m) = true) -> forallb is_CardSpec (imap f messages) = true.
Proof.
  revert f. induction messages as [|m messages IH]; intros f Hf; [reflexivity|].
  simpl. rewrite Hf. apply IH. intros i m'. apply Hf.
Qed.

(** X17: whatever the form holds, the configuration [buildConfig] returns
    is accepted by the loader's [validateConfig] and has the shape of a
    GameConfig; its cards are built, in order, from the lines of the
    message box that are not blank, each message trimmed and not empty;
    the slug shown in the form is a slug of the title. *)
Theorem buildConfig_valid inputs st :
  validateConfig (snd (fst (buildConfig inputs st))) = Normal true /\
  valid_config (snd (fst (buildConfig inputs st))) = true /\
  prop (snd (fst (buildConfig inputs st))) "cards"
  = Some (JArr (imap editor_card (editor_messages (messagesInput_value inputs)))) /\
  Forall (fun m => m <> EmptyString /\ trim m = m)
    (editor_messages (messagesInput_value inputs)) /\
  is_slug (slugInput_value (snd (buildConfig inputs st))) = true /\
  slugInput_value (snd (buildConfig inputs st))
  = formatSlug (meta_title (fst (fst (buildConfig inputs st)))) /\
  meta_title (fst (fst (buildConfig inputs st))) <> EmptyString.
Proof.
  unfold buildConfig, nextGameNumber. cbn [fst snd slugInput_value meta_title].
  split; [reflexivity|]. split.
  - unfold valid_config. cbn [prop assoc String.eqb Ascii.eqb Bool.eqb].
    simpl. apply imap_cards_valid. intros i m. reflexivity.
  - split; [reflexivity|]. split; [apply editor_messages_trimmed|].
    split; [apply formatSlug_is_slug|]. split; [reflexivity|].
    destruct (trim (titleInput_value inputs)) eqn:E; simpl; discriminate.
Qed.


Lemma module_outcome_resolved w gameType m f :
  import w (module_path gameType) = ImportResolved m -> mod_startGame m = Some f ->
  module_outcome w gameType = Normal m.
Proof.
  intros Hi Hf. unfold module_outcome, loadGameModule, do_import, module_path in *. run. simpl.
  rewrite Hi. simpl. rewrite Hf. reflexivity.
Qed.




(** ** admin/editor.js: nextGameNumber *)

Lemma digit_not_space c : is_digit c = true -> is_js_space c = false.
Proof.
  unfold is_digit, is_js_space. intros H. apply andb_true_iff in H as [H1 H2].
  apply N.leb_le in H1, H2.
  destruct (N.leb_spec 9 (N_of_ascii c)), (N.leb_spec (N_of_ascii c) 13),
    (N.eqb_spec (N_of_ascii c) 32), (N.eqb_spec (N_of_ascii c) 160); simpl; try reflexivity; lia.
Qed.

Lemma string_of_N_facts n :
  trimStart (string_of_N n) = string_of_N n /\
  strip 45 (string_of_N n) = None /\ strip 43 (string_of_N n) = None /\
  span_digits (string_of_N n) = (string_of_N n, EmptyString) /\
  is_empty (string_of_N n) = false.
Proof.
  destruct (string_of_N_canonical n) as (c & s' & Hs & Hd & _).
  split; [|split; [|split; [|split]]].
  - rewrite Hs. cbn [trimStart]. rewrite (digit_not_space c Hd). reflexivity.
  - rewrite Hs. apply (strip_digit c s' 45 Hd eq_refl).
  - rewrite Hs. apply (strip_digit c s' 43 Hd eq_refl).
  - rewrite <- (sapp_nil_r (string_of_N n)) at 1. apply span_digits_uint. reflexivity.
  - rewrite Hs. reflexivity.
Qed.

Lemma parseInt_digits n : parseInt (string_of_N n) = Some (Z.of_N n).
Proof.
  destruct (string_of_N_facts n) as (Ht & H45 & H43 & Hsp & He).
  unfold parseInt. cbv zeta. rewrite Ht, H45, H43. cbn [fst snd]. rewrite Hsp. cbn [fst].
  rewrite He. unfold string_of_N. rewrite NilEmpty.usu. simpl.
  rewrite DecimalN.Unsigned.of_to. f_equal. lia.
Qed.

(** [parseInt] reads back what [String] printed. *)
Lemma parseInt_string_of_Z z : parseInt (string_of_Z z) = Some z.
Proof.
  unfold string_of_Z. destruct (Z.ltb_spec z 0) as [Hz|Hz].
  - destruct (string_of_N_facts (Z.abs_N z)) as (_ & _ & _ & Hsp & He).
    unfold parseInt. cbv zeta.
    change (trimStart ("-" +:+ string_of_N (Z.abs_N z)))
      with ("-" +:+ string_of_N (Z.abs_N z)).
    change (strip 45 ("-" +:+ string_of_N (Z.abs_N z))) with (Some (string_of_N (Z.abs_N z))).
    cbn [fst snd]. rewrite Hsp. cbn [fst]. rewrite He.
    unfold string_of_N. rewrite NilEmpty.usu. simpl.
    rewrite DecimalN.Unsigned.of_to. f_equal. lia.
  - rewrite parseInt_digits. f_equal. lia.
Qed.

Lemma nextGameNumber_stored (localStorage : gmap string string) z :
  localStorage !! game_number_key = Some (string_of_Z z) ->
  nextGameNumber localStorage
  = (Some (z + 1), <[game_number_key := string_of_Z (z + 1)]> localStorage).
Proof.
  intros H. unfold nextGameNumber. rewrite H.
  assert (Hn : nonempty (Some (string_of_Z z)) = true).
  { destruct (string_of_Z_head z) as (c & s & -> & _). reflexivity. }
  rewrite Hn. simpl default. rewrite parseInt_string_of_Z. reflexivity.
Qed.

Lemma after_calls_stored k (localStorage : gmap string string) :
  localStorage !! game_number_key = None ->
  after_calls (S k) localStorage !! game_number_key = Some (string_of_Z (Z.of_nat (S k))).
Proof.
  intros H. induction k as [|k IH].
  - simpl. unfold nextGameNumber. rewrite H. simpl. apply lookup_insert_eq.
  - cbn [after_calls] in *. rewrite (nextGameNumber_stored _ _ IH). cbn [snd].
    rewrite lookup_insert_eq. do 2 f_equal. lia.
Qed.

(** X19: the game counter survives the round trip through [localStorage].
    With no counter stored the first call returns 1; with the decimal text
    of [z] stored a call returns [z + 1] and stores its text; so the calls
    of a fresh browser return 1, 2, 3, ... in turn (all this below 2^53,
    where the numbers of JavaScript are exact).  A stored text that
    does not start with a number makes the call return NaN and store
    "NaN", after which every call returns NaN. *)
Theorem nextGameNumber_counts (localStorage : gmap string string) :
  (localStorage !! game_number_key = None ->
   forall k, Z.of_nat k < 2 ^ 53 ->
     fst (nextGameNumber (after_calls k localStorage)) = Some (Z.of_nat k + 1)) /\
  (forall z, Z.abs z < 2 ^ 53 ->
     localStorage !! game_number_key = Some (string_of_Z z) ->
     nextGameNumber localStorage
     = (Some (z + 1), <[game_number_key := string_of_Z (z + 1)]> localStorage)) /\
  (forall text, localStorage !! game_number_key = Some text -> text <> EmptyString ->
     parseInt text = None ->
     forall k, fst (nextGameNumber (after_calls k localStorage)) = None).
Proof.
  split; [|split].
  - intros H [|k] _.
    + simpl. unfold nextGameNumber. rewrite H. reflexivity.
    + rewrite (nextGameNumber_stored _ _ (after_calls_stored k _ H)). cbn [fst].
      f_equal; lia.
  - intros z _. apply nextGameNumber_stored.
  - intros text H Hne Hp k.
    assert (Hk : exists t, after_calls k localStorage !! game_number_key = Some t /\
                           t <> EmptyString /\ parseInt t = None).
    { induction k as [|k (t & Ht & Hte & Htp)]; [exists text; auto|].
      exists "NaN". cbn [after_calls]. unfold nextGameNumber at 1. rewrite Ht.
      rewrite (nonempty_Some _ Hte). simpl default. rewrite Htp. cbn [snd fmap option_fmap option_map number_to_string].
      split; [apply lookup_insert_eq|]. split; [discriminate|reflexivity]. }
    destruct Hk as (t & Ht & Hte & Htp). unfold nextGameNumber. rewrite Ht.
    rewrite (nonempty_Some _ Hte). simpl default. rewrite Htp. reflexivity.
Qed.

Lemma nextGameNumber_counts_witness :
  fst (nextGameNumber (after_calls 2 ∅)) = Some (Z.of_nat 2 + 1) /\
  fst (nextGameNumber (after_calls 3 {[ game_number_key := "n/a" ]})) = None.
Proof.
  split.
  - apply (proj1 (nextGameNumber_counts ∅)
             (eq_refl : (∅ : gmap string string) !! game_number_key = None) 2%nat).
    reflexivity.
  - apply (proj2 (proj2 (nextGameNumber_counts {[ game_number_key := "n/a" ]})) "n/a");
      [reflexivity|discriminate|reflexivity].
Defined.

(** ** GameLoader.initialize: what a run ends with *)

Lemma config_outcome_inv w config :
  config_outcome w = Normal config ->
  exists r, fetch w (config_url (query w)) = Responded r /\ ok r = true /\
            json r = Normal config.
Proof.
  unfold config_outcome, config_url, overridden, config_name. run.
  destruct (nonempty (params_get "configUrl" (query w))); simpl;
    destruct (fetch w _) as [e|r]; simpl; try discriminate;
    destruct (ok r) eqn:Hok; simpl; try discriminate;
    try (destruct (status r =? 404)%N; discriminate);
    destruct (json r) eqn:Hj; simpl; try discriminate;
    intros [= <-]; eauto.
Qed.

Lemma module_outcome_inv w gameType m :
  module_outcome w gameType = Normal m ->
  import w (module_path gameType) = ImportResolved m /\ exists f, mod_startGame m = Some f.
Proof.
  intros H. split; [|apply (module_outcome_has_startGame _ _ _ H)].
  revert H. unfold module_outcome, loadGameModule, do_import, module_path. run. simpl.
  destruct (import w _) as [e|m']; simpl.
  - destruct (includes (message e) _); discriminate.
  - destruct (mod_startGame m'); simpl; [intros [= <-]; reflexivity|].
    destruct (includes _ _); discriminate.
Qed.


Lemma config_outcome_fetched w r config :
  fetch w (config_url (query w)) = Responded r -> ok r = true -> json r = Normal config ->
  config_outcome w = Normal config.
Proof.
  unfold config_outcome, config_url, overridden, config_name. run.
  destruct (nonempty (params_get "configUrl" (query w))); simpl;
    intros -> Hok Hj; simpl; rewrite Hok; simpl; rewrite Hj; reflexivity.
Qed.



Lemma prefix_refl n : String.prefix n n = true.
Proof.
  induction n as [|c n IH]; [reflexivity|]. simpl.
  destruct (Ascii.ascii_dec c c); [exact IH|contradiction].
Qed.

Lemma includes_refl n : includes n n = true.
Proof. destruct n; simpl; [reflexivity|]. rewrite prefix_refl. destruct (Ascii.ascii_dec a a); [|contradiction]. reflexivity. Qed.

Lemma includes_app_r a b n : includes b n = true -> includes (a +:+ b) n = true.
Proof.
  intros H. induction a as [|c a IH]; [exact H|].
  rewrite sapp_cons. cbn [includes]. rewrite IH. apply orb_true_r.
Qed.

(** X22: a game module that cannot be resolved is reported as missing
    files.  When the configuration is accepted and the import of the
    module is rejected with a message containing [Failed to resolve
    module], the error view shows "Game files are missing. Please check the
    installation.", with the name of the module file in the technical
    detail; the game is never started. *)
Theorem module_not_found_shows_missing_files w p config e0 :
  config_outcome w = Normal config -> validateConfig config = Normal true ->
  import w (module_path (prop config "gameType")) = ImportRejected e0 ->
  includes (message e0) "Failed to resolve module" = true ->
  container (snd (initialize w p))
  = [Markup (error_html msg_missing
               (Some ("Game module " +:+ sq +:+ js_string (prop config "gameType") +:+ ".js"
                      +:+ sq +:+ " not found")))] /\
  ~ In GameStarted
       (drop (length (events p)) (events (snd (initialize w p)))).
Proof.
  intros Hc Hv Hi Hinc.
  pose proof (module_outcome_rejected w _ e0 Hi) as Hm. rewrite Hinc in Hm.
  rewrite (initialize_module_failure w p config true _ Hc Hv Hm).
  unfold failed_page. cbn [snd container events]. split.
  - f_equal. f_equal. unfold userMessage, newError, instanceof_ConfigError. cbn [eclass message].
    assert (Hnf : includes ("Game module " +:+ sq +:+ js_string (prop config "gameType")
                            +:+ ".js" +:+ sq +:+ " not found") "not found" = true).
    { do 5 apply includes_app_r. reflexivity. }
    rewrite Hnf. reflexivity.
  - unfold themed, add_events.
    destruct (truthy (prop config "theme")); cbn [events];
      rewrite <- !app_assoc, drop_app_length; simpl;
      intros H; repeat (destruct H as [H|H]; [discriminate|]); exact H.
Qed.

Lemma module_not_found_shows_missing_files_witness :
  container (snd (initialize
     (mkWorld [] (fun _ => Responded (mkResponse 200 "OK" (Normal (JObj [("gameType", JStr "quiz")]))))
        (fun _ => ImportRejected
                    (mkError TypeErrorC "Failed to resolve module specifier './games/quiz.js'" None))
        (fun _ => true)) blank_page))
  = [Markup (error_html msg_missing
               (Some ("Game module " +:+ sq +:+ js_string (Some (JStr "quiz")) +:+ ".js"
                      +:+ sq +:+ " not found")))].
Proof.
  apply (module_not_found_shows_missing_files
           (mkWorld [] (fun _ => Responded (mkResponse 200 "OK"
                                              (Normal (JObj [("gameType", JStr "quiz")]))))
              (fun _ => ImportRejected
                          (mkError TypeErrorC
                             "Failed to resolve module specifier './games/quiz.js'" None))
              (fun _ => true)) blank_page (JObj [("gameType", JStr "quiz")])
           (mkError TypeErrorC "Failed to resolve module specifier './games/quiz.js'" None));
    reflexivity.
Defined.

(** ** The earlier loader *)

Lemma legacy_fetch_run w p r :
  fetch w (config_url (query w)) = Responded r -> ok r = true ->
  legacy_fetchConfigFromUrlOrName w p
  = (json r, add_events p [Fetched (config_url (query w))]).
Proof.
  unfold legacy_fetchConfigFromUrlOrName, config_url, overridden, config_name, add_events. run.
  destruct (nonempty (params_get "configUrl" (query w))); simpl;
    intros -> Hok; simpl; [|rewrite Hok; simpl]; destruct (json r); reflexivity.
Qed.

Lemma legacy_loadGame_fetched w p r config :
  fetch w (config_url (query w)) = Responded r -> ok r = true -> json r = Normal config ->
  config <> JNull ->
  legacy_loadGame w p
  = try_catch
      (module ← do_import w (module_path (prop config "gameType"));
       set_container [];;
       call_startGame module config)
      (fun err =>
         emit (ConsoleError "Loader error:" err);;
         legacy_showError legacy_failure_message)
      (snd (legacy_applyTheme (prop config "theme")
              (add_events p [Fetched (config_url (query w))]))).
Proof.
  intros Hf Hok Hj Hnn. unfold legacy_loadGame, try_catch.
  step. rewrite (legacy_fetch_run w p r Hf Hok), Hj.
  step. unfold liftC at 1. rewrite (get_prop_nonnull _ "theme" Hnn).
  step.
  destruct (legacy_applyTheme (prop config "theme")
              (add_events p [Fetched (config_url (query w))])) as [[[]|e] p1] eqn:Ht.
  - step. unfold liftC at 1. rewrite (get_prop_nonnull _ "gameType" Hnn). reflexivity.
  - unfold legacy_applyTheme in Ht. destruct (truthy (prop config "theme")); discriminate.
Qed.

(** X23: on the runs that work the earlier loader and the enhanced one
    show the same game.  Whenever [GameLoader.initialize] ends with the
    game running, [loadGame] of the earlier loader ends normally with the
    same content in the container and the same custom properties. *)
Theorem legacy_loadGame_agrees_on_success w p config m f children :
  config_outcome w = Normal config -> validateConfig config = Normal true ->
  module_outcome w (prop config "gameType") = Normal m ->
  mod_startGame m = Some f -> f config [] = (Normal tt, children) ->
  fst (legacy_loadGame w p) = Normal tt /\
  container (snd (legacy_loadGame w p)) = children /\
  container (snd (legacy_loadGame w p)) = container (snd (initialize w p)) /\
  rootStyle (snd (legacy_loadGame w p)) = rootStyle (snd (initialize w p)).
Proof.
  intros Hc Hv Hm Hf He.
  destruct (config_outcome_inv w config Hc) as (r & Hr & Hok & Hj).
  destruct (validateConfig_Normal _ _ Hv) as (_ & Hnn & _).
  destruct (module_outcome_inv _ _ _ Hm) as (Hi & _).
  rewrite (initialize_success w p config true m f children Hc Hv Hm Hf He).
  rewrite (legacy_loadGame_fetched w p r config Hr Hok Hj Hnn).
  unfold try_catch, do_import, call_startGame, on_container, set_container, emit.
  unfold mbind, M_bind, mret, M_ret, throw. cbn [fst snd events container bodyStyle rootStyle].
  rewrite Hi, Hf. cbn [fst snd events container bodyStyle rootStyle]. rewrite He.
  cbn [fst snd container rootStyle]. unfold legacy_applyTheme, themed, add_events.
  destruct (truthy (prop config "theme")); repeat split.
Qed.

Lemma legacy_loadGame_agrees_on_success_witness :
  container (snd (legacy_loadGame
     (mkWorld [] (fun _ => Responded (mkResponse 200 "OK"
                                        (Normal (JObj [("gameType", JStr "card-flip");
                                                       ("theme", JStr "sea");
                                                       ("cards", JArr [])]))))
        (fun _ => ImportResolved card_flip_module) (fun _ => true)) blank_page))
  = [Element "h2" "" [] [("text-align", "center")] [] [TextNode "Card Flip"];
     Element "div" "cards-wrapper" [] [] [] []].
Proof.
  apply (legacy_loadGame_agrees_on_success
           (mkWorld [] (fun _ => Responded (mkResponse 200 "OK"
                                              (Normal (JObj [("gameType", JStr "card-flip");
                                                             ("theme", JStr "sea");
                                                             ("cards", JArr [])]))))
              (fun _ => ImportResolved card_flip_module) (fun _ => true)) blank_page
           (JObj [("gameType", JStr "card-flip"); ("theme", JStr "sea"); ("cards", JArr [])])
           card_flip_module startGame
           [Element "h2" "" [] [("text-align", "center")] [] [TextNode "Card Flip"];
            Element "div" "cards-wrapper" [] [] [] []]); reflexivity.
Defined.

Lemma legacy_tail_run w config q :
  exists more,
    events (snd (try_catch
                   (module ← do_import w (module_path (prop config "gameType"));
                    set_container [];;
                    call_startGame module config)
                   (fun err =>
                      emit (ConsoleError "Loader error:" err);;
                      legacy_showError legacy_failure_message) q))
    = events q ++ Imported (module_path (prop config "gameType")) :: more /\
    rootStyle (snd (try_catch
                   (module ← do_import w (module_path (prop config "gameType"));
                    set_container [];;
                    call_startGame module config)
                   (fun err =>
                      emit (ConsoleError "Loader error:" err);;
                      legacy_showError legacy_failure_message) q))
    = rootStyle q.
Proof.
  unfold try_catch, do_import, call_startGame, on_container, set_container, emit,
    legacy_showError, set_container.
  unfold mbind, M_bind, mret, M_ret, throw. simpl.
  destruct (import w _) as [e|m]; simpl.
  - eexists. rewrite <- app_assoc. split; reflexivity.
  - destruct (mod_startGame m) as [f|]; simpl.
    + destruct (f config []) as [[[]|e] children]; simpl.
      * eexists. rewrite <- app_assoc. split; reflexivity.
      * eexists. rewrite <- !app_assoc. split; reflexivity.
    + eexists. rewrite <- app_assoc. split; reflexivity.
Qed.

(** X24: the earlier loader does not validate.  For a configuration object
    without [gameType] it still applies the theme and asks for the module
    [./games/undefined.js]; the enhanced loader, on the same page and
    world, stops after the request for the configuration. *)
Theorem legacy_loadGame_does_not_validate w p r props :
  fetch w (config_url (query w)) = Responded r -> ok r = true ->
  json r = Normal (JObj props) -> assoc "gameType" props = None ->
  In (Imported "./games/undefined.js") (events (snd (legacy_loadGame w p))) /\
  (truthy (assoc "theme" props) = true ->
   rootStyle (snd (legacy_loadGame w p)) !! "--card-back"
   = Some (css_url (theme_asset (assoc "theme" props) "card-back.png"))) /\
  events (snd (initialize w p))
  = events p ++ [Fetched (config_url (query w));
                 ConsoleError "Game loader error:"
                   (newError "Missing required config fields: gameType")].
Proof.
  intros Hf Hok Hj Hg.
  rewrite (legacy_loadGame_fetched w p r (JObj props) Hf Hok Hj) by discriminate.
  destruct (legacy_tail_run w (JObj props)
              (snd (legacy_applyTheme (prop (JObj props) "theme")
                      (add_events p [Fetched (config_url (query w))]))))
    as (more & Hev & Hroot).
  split; [|split].
  - rewrite Hev. simpl prop. rewrite Hg. apply in_or_app. right. left. reflexivity.
  - intros Ht. rewrite Hroot. simpl prop. unfold legacy_applyTheme. rewrite Ht.
    apply lookup_insert_eq.
  - pose proof (config_outcome_fetched w r (JObj props) Hf Hok Hj) as Hc.
    assert (Hv : validateConfig (JObj props)
                 = Throw (newError "Missing required config fields: gameType")).
    { rewrite validateConfig_cases. simpl prop. rewrite Hg. reflexivity. }
    rewrite (initialize_validation_failure w p _ _ Hc Hv). reflexivity.
Qed.

Lemma legacy_loadGame_does_not_validate_witness :
  In (Imported "./games/undefined.js")
     (events (snd (legacy_loadGame
        (world_answering [] (mkResponse 200 "OK" (Normal (JObj [("theme", JStr "sea")]))))
        blank_page))).
Proof.
  apply (legacy_loadGame_does_not_validate
           (world_answering [] (mkResponse 200 "OK" (Normal (JObj [("theme", JStr "sea")]))))
           blank_page (mkResponse 200 "OK" (Normal (JObj [("theme", JStr "sea")])))
           [("theme", JStr "sea")]); reflexivity.
Defined.

(** ** StorageUtils: overwriting and [undefined] *)


(** ** The loader and the card-flip game: a configuration without cards *)

(** X26: [validateConfig] does not look at [cards], and the card-flip game
    needs them.  A configuration that names the game but has no [cards]
    passes validation, the module is loaded and started, [startGame] throws
    on [config.cards.forEach], and the run ends in the error view with the
    generic message, the title the game had already rendered being
    replaced. *)
Theorem missing_cards_fail_at_start w p r props :
  fetch w (config_url (query w)) = Responded r -> ok r = true ->
  json r = Normal (JObj props) ->
  truthy (assoc "gameType" props) = true -> assoc "cards" props = None ->
  import w (module_path (assoc "gameType" props)) = ImportResolved card_flip_module ->
  validateConfig (JObj props) = Normal true /\
  fst (initialize w p) = Normal tt /\
  container (snd (initialize w p))
  = [Markup (error_html msg_generic
               (Some ("Failed to initialize game: Cannot read properties of undefined (reading "
                      +:+ sq +:+ "forEach" +:+ sq +:+ ")")))] /\
  In GameStarted (events (snd (initialize w p))).
Proof.
  intros Hf Hok Hj Hg Hcards Hi.
  pose proof (config_outcome_fetched w r (JObj props) Hf Hok Hj) as Hc.
  assert (Hv : validateConfig (JObj props) = Normal true).
  { rewrite validateConfig_cases. simpl prop. rewrite Hg. reflexivity. }
  pose proof (module_outcome_resolved w (assoc "gameType" props) card_flip_module startGame
                Hi eq_refl) as Hm.
  assert (Hs : startGame (JObj props) []
               = (Throw (read_of_undefined "forEach"),
                  [Element "h2" "" [] [("text-align", "center")] []
                     [TextNode (js_string (js_or (assoc "title" props)
                                             (Some (JStr "Card Flip"))))]])).
  { unfold startGame. simpl. rewrite Hcards. reflexivity. }
  rewrite (initialize_game_failure w p (JObj props) true card_flip_module startGame _ _
             Hc Hv Hm eq_refl Hs).
  split; [exact Hv|]. split; [reflexivity|]. split; [reflexivity|].
  unfold failed_page. cbn [snd events]. apply in_or_app. right.
  right. left. reflexivity.
Qed.

Lemma missing_cards_fail_at_start_witness :
  container (snd (initialize
     (mkWorld [] (fun _ => Responded (mkResponse 200 "OK"
                                        (Normal (JObj [("gameType", JStr "card-flip")]))))
        (fun _ => ImportResolved card_flip_module) (fun _ => true)) blank_page))
  = [Markup (error_html msg_generic
               (Some ("Failed to initialize game: Cannot read properties of undefined (reading "
                      +:+ sq +:+ "forEach" +:+ sq +:+ ")")))].
Proof.
  exact (proj1 (proj2 (proj2 (missing_cards_fail_at_start
           (mkWorld [] (fun _ => Responded (mkResponse 200 "OK"
                                              (Normal (JObj [("gameType", JStr "card-flip")]))))
              (fun _ => ImportResolved card_flip_module) (fun _ => true)) blank_page
           (mkResponse 200 "OK" (Normal (JObj [("gameType", JStr "card-flip")])))
           [("gameType", JStr "card-flip")] eq_refl eq_refl eq_refl eq_refl eq_refl eq_refl)))).
Defined.
